(** * Habit streak and statistics engine of the Habit-Tracker backend

    Shallow embedding of the pure parts of
    - [StreakService] in Backend/src/models/user.model.js
      ([calculateStreaks], [calculateConsistencyScore], [calculateExpectedDays],
       [getUserStats], [predictNextMilestone]);
    - [HabitLogModel.getHabitStats] in Backend/src/models/HabitLog.ts;
    and of the services around them: [calculateHabitStats], [getStreakComparison],
    the [AIService] helpers, [HabitService.canLogHabitToday], [validateHabitData],
    [bulkLogUpdate] and [getHabitSuggestions] (user.model.js),
    [getCompletionCalendar] and [bulkInsert] (HabitLog.ts), [HabitModel.update]
    (Habit.ts).

    Dates.  A [log_date] is a calendar date 'YYYY-MM-DD'; [new Date(s)] parses it
    at UTC midnight, so [(a.getTime() - b.getTime()) / 86400000] is an exact
    integer and [Math.floor] leaves it unchanged.  We write a date as the number
    of days since 1970-01-01 (a Thursday) and read [getDay()] in UTC.

    Numbers.  JavaScript numbers are modelled by rationals [Q]; where a division
    by zero can happen the result is a [JSNum] carrying the IEEE special values
    the code can reach (Infinity, NaN).  Where the rounding of binary64
    arithmetic changes a result (the averages of [getUserStats] and the
    projection of [predictNextMilestone]), numbers are IEEE 754 binary64 values
    ([spec_float] of the Standard Library, rounding to nearest, ties to even). *)

From Stdlib Require Import ZArith QArith Qround Qminmax List Bool Lia.
From Stdlib Require String Ascii.
From Stdlib Require Import Sorting.Permutation Sorting.Sorted.
From Stdlib Require Import Floats.SpecFloat.
Import ListNotations.
Import (notations) String Ascii.

Open Scope Z_scope.

(** ** Data model *)

(** One row of [habit_logs] as the streak code reads it. *)
Record HabitLog := mkLog { log_date : Z; completed : bool }.

(** ** [Array.prototype.sort] with a comparator

    The ECMAScript sort is stable; any stable sort returns the same array for a
    consistent comparator, so we model it by a stable insertion sort.
    [keep_before y x] holds when [comparator(y, x) <= 0], i.e. an earlier element
    [y] stays in front of a later element [x]. *)
Section StableSort.
Context {A : Type}.
Variable keep_before : A -> A -> bool.

Fixpoint insert_stable (x : A) (s : list A) : list A :=
  match s with
  | [] => [x]
  | y :: s' => if keep_before y x then y :: insert_stable x s' else x :: s
  end.

Definition stable_sort (l : list A) : list A :=
  fold_left (fun acc x => insert_stable x acc) l [].
End StableSort.

(** [sort((a, b) => new Date(b.log_date) - new Date(a.log_date))]: newest first. *)
Definition newest_first : list HabitLog -> list HabitLog :=
  stable_sort (fun y x => log_date x <=? log_date y).

(** [sort((a, b) => new Date(a.log_date) - new Date(b.log_date))]: oldest first. *)
Definition chronological : list HabitLog -> list HabitLog :=
  stable_sort (fun y x => log_date y <=? log_date x).

(** Result of both streak computations:
    [{ currentStreak, longestStreak, lastCompletedDate }] resp.
    [{ current_streak, longest_streak, last_completed }]. *)
Record Streaks := mkStreaks {
  currentStreak : Z;
  longestStreak : Z;
  lastCompletedDate : option Z
}.

(** ** [StreakService.calculateStreaks] (user.model.js)

    The [for (const log of sortedLogs)] loop with its local variables
    [currentStreak], [tempStreak], [longestStreak], [lastCompletedDate] and
    [prevDate] passed explicitly; [break] returns the variables as they are. *)
Fixpoint calc_loop (l : list HabitLog) (cur temp longest : Z)
    (last prev : option Z) : Streaks :=
  match l with
  | [] => mkStreaks cur longest last
  | log :: rest =>
      let d := log_date log in
      if completed log then
        if cur =? 0 then
          (* start of current streak; then tempStreak++ *)
          calc_loop rest 1 (temp + 1)
            (if longest <? temp + 1 then temp + 1 else longest) (Some d) (Some d)
        else
          match prev with
          | Some p =>
              if p - d =? 1 then
                calc_loop rest (cur + 1) (temp + 1)
                  (if longest <? temp + 1 then temp + 1 else longest) last (Some d)
              else mkStreaks cur longest last (* break: streak broken *)
          | None =>
              calc_loop rest cur (temp + 1)
                (if longest <? temp + 1 then temp + 1 else longest) last (Some d)
          end
      else
        (* reset temp streak on missed day *)
        calc_loop rest cur 0 longest last (Some d)
  end.

Definition calculateStreaks (logs : list HabitLog) : Streaks :=
  match logs with
  | [] => mkStreaks 0 0 None
  | _ => calc_loop (newest_first logs) 0 0 0 None None
  end.

(** ** The streak part of [HabitLogModel.getHabitStats] (HabitLog.ts)

    First loop: current streak over [sortedLogs] (newest first).  The previous
    date is [sortedLogs[sortedLogs.indexOf(log) - 1]?.log_date]; at index 0 it
    is [undefined], an Invalid Date whose difference is NaN, never 1 ([None]). *)
Fixpoint hs_current (l : list HabitLog) (prev : option Z) (cur : Z) : Z :=
  match l with
  | [] => cur
  | log :: rest =>
      if completed log then
        if cur =? 0 then hs_current rest (Some (log_date log)) 1
        else
          match prev with
          | Some p =>
              if p - log_date log =? 1
              then hs_current rest (Some (log_date log)) (cur + 1)
              else cur
          | None => cur
          end
      else cur
  end.

(** Second loop: longest streak and [lastCompleted] over [chronologicalLogs]. *)
Fixpoint hs_longest (l : list HabitLog) (temp longest : Z) (last : option Z)
    : Z * option Z :=
  match l with
  | [] => (longest, last)
  | log :: rest =>
      if completed log then
        hs_longest rest (temp + 1)
          (if longest <? temp + 1 then temp + 1 else longest) (Some (log_date log))
      else hs_longest rest 0 longest last
  end.

Definition getHabitStats_streaks (logs : list HabitLog) : Streaks :=
  let cur := hs_current (newest_first logs) None 0 in
  let '(longest, last) := hs_longest (chronological logs) 0 0 None in
  mkStreaks cur longest last.

(** ** JavaScript numbers at the divisions of the consistency score *)
Inductive JSNum := Num (q : Q) | PosInf | NegInf | NaN.

Open Scope Q_scope.

(** [a / b]: division by zero gives Infinity, -Infinity or NaN ([0 / 0]). *)
Definition js_div (a b : Q) : JSNum :=
  if Qeq_bool b 0 then
    if negb (Qle_bool a 0) then PosInf
    else if negb (Qle_bool 0 a) then NegInf
    else NaN
  else Num (a / b).

(** [x * c] for a positive constant [c]. *)
Definition js_scale (x : JSNum) (c : Q) : JSNum :=
  match x with
  | Num q => Num (q * c)
  | v => v
  end.

(** [Math.min(x, y)]: NaN if either argument is NaN. *)
Definition js_min (x y : JSNum) : JSNum :=
  match x, y with
  | NaN, _ | _, NaN => NaN
  | Num a, Num b => if Qle_bool a b then Num a else Num b
  | PosInf, v | v, PosInf => v
  | NegInf, _ | _, NegInf => NegInf
  end.

Definition js_add (x y : JSNum) : JSNum :=
  match x, y with
  | Num a, Num b => Num (a + b)
  | NaN, _ | _, NaN => NaN
  | PosInf, NegInf | NegInf, PosInf => NaN
  | PosInf, _ | _, PosInf => PosInf
  | NegInf, _ | _, NegInf => NegInf
  end.

(** [Math.round(q)] on a finite value: the nearest integer, halves upward. *)
Definition q_round (q : Q) : Z := Qfloor (q + (1 # 2)).

Definition js_round (x : JSNum) : JSNum :=
  match x with
  | Num q => Num (inject_Z (q_round q))
  | v => v
  end.

(** ** IEEE 754 binary64 numbers *)

(** A JavaScript number: 53-bit significand, largest exponent 1024. *)
Definition prec64 : Z := 53.
Definition emax64 : Z := 1024.

Definition double : Type := spec_float.

(** The number with the integer value [z] (rounded if [|z| > 2^53]). *)
Definition f64_of_Z (z : Z) : double := binary_normalize prec64 emax64 z 0 false.

Definition f64_zero : double := S754_zero false.

(** [x + y], [x - y], [x * y], [x / y], each correctly rounded. *)
Definition f64_add (x y : double) : double := SFadd prec64 emax64 x y.
Definition f64_sub (x y : double) : double := SFsub prec64 emax64 x y.
Definition f64_mul (x y : double) : double := SFmul prec64 emax64 x y.
Definition f64_div (x y : double) : double := SFdiv prec64 emax64 x y.

(** [x < y] (false when one of them is NaN). *)
Definition f64_ltb (x y : double) : bool := SFltb x y.

(** The exact value of a finite number (0 for infinities and NaN). *)
Definition f64_to_Q (x : double) : Q :=
  match x with
  | S754_finite s m e =>
      let n := if s then Z.neg m else Z.pos m in
      if (0 <=? e)%Z then inject_Z (n * 2 ^ e) else Qmake n (Pos.pow 2 (Z.to_pos (- e)))
  | _ => 0
  end.

(** [Math.round(x)]: the integer nearest to the exact value, halves upward;
    -0 for a negative [x] rounding to 0; infinities, zeros and NaN unchanged. *)
Definition math_round (x : double) : double :=
  match x with
  | S754_finite s _ _ =>
      let z := q_round (f64_to_Q x) in
      if (z =? 0)%Z then S754_zero s else f64_of_Z z
  | _ => x
  end.

(** [Math.ceil(x)]: the least integer not below the exact value; -0 for a
    negative [x] above -1. *)
Definition math_ceil (x : double) : double :=
  match x with
  | S754_finite s _ _ =>
      let z := Qceiling (f64_to_Q x) in
      if (z =? 0)%Z then S754_zero s else f64_of_Z z
  | _ => x
  end.

(** [Math.min(x, y)]. *)
Definition math_min (x y : double) : double :=
  match x, y with
  | S754_nan, _ | _, S754_nan => S754_nan
  | _, _ => if f64_ltb y x then y else x
  end.

(** [Math.round(x * 100) / 100]. *)
Definition round2_f64 (x : double) : double :=
  f64_div (math_round (f64_mul x (f64_of_Z 100))) (f64_of_Z 100).

(** ** Schedule adherence ([calculateConsistencyScore], [calculateExpectedDays]) *)

(** [habit.frequency : 'daily' | 'weekly']. *)
Inductive Frequency := Daily | Weekly.

(** [logs.filter(log => log.completed).length]. *)
Definition count_completed (logs : list HabitLog) : Z :=
  Z.of_nat (length (filter completed logs)).

(** [new Date(log.log_date).getDay()]: 0 = Sunday; day 0 (1970-01-01) is a Thursday. *)
Definition getDay (d : Z) : Z := ((d + 4) mod 7)%Z.

(** [day === 0 ? 7 : day]. *)
Definition normalize_weekday (day : Z) : Z := if (day =? 0)%Z then 7 else day.

(** [targetDays.includes(x)]. *)
Definition includes (targetDays : list Z) (x : Z) : bool :=
  existsb (Z.eqb x) targetDays.

(** [calculateExpectedDays]: the [Set] of the logs' [getDay()] values, filtered
    by membership of the normalized weekday in [targetDays], counted.  (The
    [Set] keeps first occurrences, [nodup] the last ones; only the count is used.) *)
Definition calculateExpectedDays (logs : list HabitLog) (targetDays : list Z) : Z :=
  let uniqueDays := nodup Z.eq_dec (map (fun log => getDay (log_date log)) logs) in
  Z.of_nat (length (filter (fun day => includes targetDays (normalize_weekday day))
                      uniqueDays)).

(** The [scheduleScore] variable of [calculateConsistencyScore];
    [targetDays] is [habit.target_days], possibly absent. *)
Definition schedule_score (logs : list HabitLog) (frequency : Frequency)
    (targetDays : option (list Z)) : JSNum :=
  let completedDays := count_completed logs in
  match frequency, targetDays with
  | Weekly, Some td =>
      let expectedDays := calculateExpectedDays logs td in
      js_min (js_scale (js_div (inject_Z completedDays) (inject_Z expectedDays)) 20)
             (Num 20)
  | Weekly, None => Num 0
  | Daily, _ => Num (if (completedDays >? 0)%Z then 20 else 0)
  end.

(** [calculateConsistencyScore(logs, frequency, targetDays)]. *)
Definition calculateConsistencyScore (logs : list HabitLog) (frequency : Frequency)
    (targetDays : option (list Z)) : JSNum :=
  match logs with
  | [] => Num 0
  | _ =>
      let totalDays := Z.of_nat (length logs) in
      let completedDays := count_completed logs in
      let completionScore := inject_Z completedDays / inject_Z totalDays * 50 in
      let s := calculateStreaks logs in
      let streakScore :=
        js_min (Num (inject_Z (currentStreak s)
                     / inject_Z (Z.max (longestStreak s) 1) * 30)) (Num 30) in
      let scheduleScore := schedule_score logs frequency targetDays in
      js_round (js_add (js_add (Num completionScore) streakScore) scheduleScore)
  end.

(** ** User statistics ([StreakService.getUserStats]) *)

(** One element of [habitsByCompletion]. *)
Record HabitSummary := mkSummary {
  habit_id : Z;
  name : String.string;
  completion_rate : Q;
  current_streak : Z
}.

(** [UserStats]; the fields [current_streak] and [best_streak] carry a [us_] prefix. *)
Record UserStats := mkUserStats {
  overall_completion_rate : Q;
  total_active_habits : Z;
  total_completed_logs : Z;
  us_current_streak : Z;
  us_best_streak : Z;
  average_streak : Q;
  habits_by_completion : list HabitSummary
}.

(** A settled promise. *)
Inductive Result (A : Type) := Ok (a : A) | Err (e : String.string).
Arguments Ok {A} a.
Arguments Err {A} e.

(** [Promise.all]: rejects as soon as one element rejects. *)
Fixpoint promise_all {A} (rs : list (Result A)) : Result (list A) :=
  match rs with
  | [] => Ok []
  | Err e :: _ => Err e
  | Ok a :: rest =>
      match promise_all rest with
      | Ok l => Ok (a :: l)
      | Err e => Err e
      end
  end.

(** [Math.round(x * 100) / 100]. *)
Definition round2 (x : Q) : Q := inject_Z (q_round (x * 100)) / 100.

(** [arr.reduce((sum, x) => sum + x, 0)]. *)
Definition sum_Q (l : list Q) : Q := fold_left Qplus l 0.

(** [Math.max(...streaks, 0)]. *)
Definition max_with_zero (l : list Z) : Z := fold_right Z.max 0%Z l.

(** [habitsByCompletion.sort((a, b) => b.completion_rate - a.completion_rate)]. *)
Definition sort_by_rate_desc : list HabitSummary -> list HabitSummary :=
  stable_sort (fun y x => Qle_bool (completion_rate x) (completion_rate y)).

(** The part of [getUserStats] after [Promise.all] resolved; [totalCompletedLogs]
    is the count returned by the SQL query.  The rates and averages are read as
    exact rationals here; [getUserStats_averages] below computes the two averages
    in binary64 as the code does. *)
Definition aggregate_user_stats (habitsByCompletion : list HabitSummary)
    (n_habits totalCompletedLogs : Z) : UserStats :=
  let n := inject_Z (Z.of_nat (length habitsByCompletion)) in
  let overall :=
    match habitsByCompletion with
    | [] => 0
    | _ => sum_Q (map completion_rate habitsByCompletion) / n
    end in
  let streaks := map current_streak habitsByCompletion in
  let averageStreak :=
    match streaks with
    | [] => 0
    | _ => sum_Q (map inject_Z streaks) / n
    end in
  mkUserStats (round2 overall) n_habits totalCompletedLogs
    (max_with_zero streaks) (max_with_zero streaks) (round2 averageStreak)
    (sort_by_rate_desc habitsByCompletion).

(** [Math.round(overallCompletionRate * 100) / 100] and
    [Math.round(averageStreak * 100) / 100] of [getUserStats] in binary64, for
    [habitsByCompletion] given as the pairs [(completion_rate, current_streak)]. *)
Definition getUserStats_averages (habitsByCompletion : list (double * Z))
    : double * double :=
  let n := f64_of_Z (Z.of_nat (length habitsByCompletion)) in
  let overallCompletionRate :=
    match habitsByCompletion with
    | [] => f64_zero
    | _ => f64_div (fold_left (fun sum h => f64_add sum (fst h)) habitsByCompletion f64_zero) n
    end in
  let streaks := map snd habitsByCompletion in
  let averageStreak :=
    match streaks with
    | [] => f64_zero
    | _ => f64_div (fold_left (fun sum streak => f64_add sum (f64_of_Z streak)) streaks f64_zero)
                   (f64_of_Z (Z.of_nat (length streaks)))
    end in
  (round2_f64 overallCompletionRate, round2_f64 averageStreak).

Definition empty_user_stats : UserStats := mkUserStats 0 0 0 0 0 0 [].

(** [getUserStats(userId)]: one settled [calculateHabitStats] per habit of the
    user, in the order of [HabitModel.findByUserId]; a rejection propagates
    through [Promise.all] and the [catch] block, which rethrows. *)
Definition getUserStats (habitResults : list (Result HabitSummary))
    (totalCompletedLogs : Z) : Result UserStats :=
  match habitResults with
  | [] => Ok empty_user_stats
  | _ =>
      match promise_all habitResults with
      | Err e => Err e
      | Ok hs =>
          Ok (aggregate_user_stats hs (Z.of_nat (length habitResults))
                totalCompletedLogs)
      end
  end.

(** ** Milestone projection ([StreakService.predictNextMilestone]) *)

Definition milestones : list Z := [3; 7; 14; 21; 30; 60; 90; 100]%Z.

Record MilestoneProjection := mkProjection {
  nextMilestone : Z;
  daysToReach : double;
  confidence : double
}.

(** The body of the [try] block after [calculateHabitStats] returned [stats]:
    [current_streak] is a count, [completion_rate] the number
    [Math.round(x * 100) / 100] of [calculateHabitStats]. *)
Definition project_milestone (current_streak : Z) (completion_rate : double)
    : MilestoneProjection :=
  let next :=
    match find (fun m => (current_streak <? m)%Z) milestones with
    | Some m => if (m =? 0)%Z then (current_streak + 7)%Z else m (* [|| ...] *)
    | None => (current_streak + 7)%Z
    end in
  let completionRate := f64_div completion_rate (f64_of_Z 100) in
  let days :=
    if f64_ltb f64_zero completionRate
    then math_ceil (f64_div (f64_sub (f64_of_Z next) (f64_of_Z current_streak))
                            completionRate)
    else f64_of_Z 99 in
  let conf := math_min (math_round (f64_mul completionRate (f64_of_Z 100))) (f64_of_Z 95) in
  mkProjection next days conf.

(** [predictNextMilestone]: a failed [calculateHabitStats] yields zeros. *)
Definition predictNextMilestone (stats : Result (Z * double)) : MilestoneProjection :=
  match stats with
  | Ok (cs, rate) => project_milestone cs rate
  | Err _ => mkProjection 0 f64_zero f64_zero
  end.

Close Scope Q_scope.

(** ** Further services of user.model.js and HabitLog.ts *)

(** *** [AIService] helpers *)

(** The [for] loop of [AIService.calculateStreak]: [streak++] on a completed
    entry, [break] on the first missed one; no date is looked at. *)
Fixpoint ai_streak_loop (l : list HabitLog) (streak : Z) : Z :=
  match l with
  | [] => streak
  | log :: rest => if completed log then ai_streak_loop rest (streak + 1) else streak
  end.

(** [AIService.calculateStreak(logs)], with the same newest-first sort. *)
Definition calculateStreak (logs : list HabitLog) : Z :=
  ai_streak_loop (newest_first logs) 0.

Open Scope Q_scope.

(** [AIService.calculateCompletionRate(logs)]. *)
Definition calculateCompletionRate (logs : list HabitLog) : Q :=
  match logs with
  | [] => 0
  | _ => inject_Z (count_completed logs) / inject_Z (Z.of_nat (length logs)) * 100
  end.

(** [AIService.calculateOverallCompletionRate(habits)]. *)
Definition calculateOverallCompletionRate (habits : list HabitSummary) : Q :=
  match habits with
  | [] => 0
  | _ => fold_left (fun sum habit => sum + completion_rate habit) habits 0
         / inject_Z (Z.of_nat (length habits))
  end.

(** *** [StreakService.calculateHabitStats] and its callers *)

(** A row of [habits] ([Habit] in Habit.ts), the fields the services read. *)
Record Habit := mkHabit {
  h_id : Z;
  h_name : String.string;
  h_frequency : Frequency;
  h_target_days : option (list Z);
  h_is_active : bool
}.

(** [HabitStats]; the fields shared with [HabitSummary] carry an [st_] prefix. *)
Record HabitStats := mkHabitStats {
  st_habit_id : Z;
  st_current_streak : Z;
  st_longest_streak : Z;
  st_completion_rate : Q;
  total_logs : Z;
  completed_logs : Z;
  last_completed_date : option Z;
  best_day_of_week : option Z;
  consistency_score : JSNum
}.

(** [calculateHabitStats(habitId, userId)]: [habit] is what [HabitModel.findById]
    returned, [logs] the rows of [findByHabitAndDateRange] for the timeframe and
    [bestDay] the value of [calculateBestDayOfWeek] (which catches its own errors). *)
Definition calculateHabitStats (habitId : Z) (habit : option Habit)
    (logs : list HabitLog) (bestDay : option Z) : Result HabitStats :=
  match habit with
  | None => Err "Habit not found or access denied"
  | Some h =>
      let totalLogs := Z.of_nat (length logs) in
      let completedLogs := count_completed logs in
      let completionRate :=
        if (totalLogs >? 0)%Z
        then inject_Z completedLogs / inject_Z totalLogs * 100 else 0 in
      let s := calculateStreaks logs in
      Ok (mkHabitStats habitId (currentStreak s) (longestStreak s)
            (round2 completionRate) totalLogs completedLogs (lastCompletedDate s)
            bestDay (calculateConsistencyScore logs (h_frequency h) (h_target_days h)))
  end.

(** The [async (habit) => ...] mapping of [getUserStats]. *)
Definition habit_summary (habit : Habit) (stats : Result HabitStats)
    : Result HabitSummary :=
  match stats with
  | Err e => Err e
  | Ok st => Ok (mkSummary (h_id habit) (h_name habit) (st_completion_rate st)
                  (st_current_streak st))
  end.

Record StreakComparison := mkComparison {
  userStreak : Z;
  averageStreak : Z;
  percentile : Z;
  topHabit : String.string
}.

(** [getStreakComparison(userId, habitId)] after [calculateHabitStats] settled. *)
Definition getStreakComparison (stats : Result HabitStats) : Result StreakComparison :=
  match stats with
  | Err e => Err e
  | Ok st =>
      Ok (mkComparison (st_current_streak st) 7
            (Z.min (q_round (inject_Z (st_current_streak st) / 30 * 100)) 99)
            "Meditation")
  end.

Close Scope Q_scope.

(** *** [HabitLogModel.getCompletionCalendar] (HabitLog.ts)

    The [map] over the rows ([ORDER BY log_date]) with the running
    [currentStreak]; each row is returned with its [streak]. *)
Fixpoint calendar_loop (rows : list HabitLog) (streak : Z) : list (HabitLog * Z) :=
  match rows with
  | [] => []
  | log :: rest =>
      let streak' := if completed log then streak + 1 else 0 in
      (log, streak') :: calendar_loop rest streak'
  end.

Definition getCompletionCalendar (rows : list HabitLog) : list (HabitLog * Z) :=
  calendar_loop rows 0.

(** *** [HabitService.canLogHabitToday] and [validateHabitData]

    [now] is the current date as a day number; [new Date().getDay()] is read
    on it like the log dates. *)
Definition canLogHabitToday (habit : Habit) (now : Z) : bool :=
  if negb (h_is_active habit) then false
  else
    match h_frequency habit, h_target_days habit with
    | Daily, _ => true
    | Weekly, Some td =>
        let today := getDay now in
        let adjustedDay := if (today =? 0)%Z then 7 else today in
        includes td adjustedDay
    | Weekly, None => false
    end.

(** [CreateHabitDTO] as [validateHabitData] reads it: the name as its UTF-16
    code units; [frequency] [None] for a string other than 'daily' and 'weekly';
    [target_days] [None] when absent or not an array, otherwise its numbers. *)
Record CreateHabitDTO := mkDTO {
  dto_name : list Z;
  dto_frequency : option Frequency;
  dto_target_days : option (list Q)
}.

(** The code units [String.prototype.trim] removes: WhiteSpace (TAB, VT, FF,
    SP, NBSP, ZWNBSP and the Space_Separator characters) and LineTerminator
    (LF, CR, LS, PS). *)
Definition js_is_whitespace (c : Z) : bool :=
  (c =? 9) || (c =? 10) || (c =? 11) || (c =? 12) || (c =? 13) || (c =? 32)
  || (c =? 160) || (c =? 5760) || ((8192 <=? c) && (c <=? 8202))
  || (c =? 8232) || (c =? 8233) || (c =? 8239) || (c =? 8287) || (c =? 12288)
  || (c =? 65279).

Fixpoint drop_whitespace (s : list Z) : list Z :=
  match s with
  | [] => []
  | c :: rest => if js_is_whitespace c then drop_whitespace rest else s
  end.

(** [s.trim()]: leading and trailing white space removed. *)
Definition trim (s : list Z) : list Z := rev (drop_whitespace (rev (drop_whitespace s))).

Open Scope Q_scope.

(** [validateHabitData(data)]: resolves ([Ok tt]) or throws with a message. *)
Definition validateHabitData (data : CreateHabitDTO) : Result unit :=
  let name := dto_name data in
  if (length name =? 0)%nat || (length (trim name) =? 0)%nat
  then Err "Habit name is required"
  else if (200 <? Z.of_nat (length name))%Z
  then Err "Habit name must be less than 200 characters"
  else
    match dto_frequency data with
    | None => Err "Frequency must be daily or weekly"
    | Some Daily => Ok tt
    | Some Weekly =>
        match dto_target_days data with
        | None | Some [] => Err "Weekly habits require at least one target day"
        | Some target_days =>
            if existsb (fun day => negb (Qle_bool 1 day) || negb (Qle_bool day 7))
                 target_days
            then Err "Target days must be numbers 1-7 (Monday-Sunday)"
            else Ok tt
        end
    end.

Close Scope Q_scope.

(** *** [HabitService.bulkLogUpdate] *)

Record BulkLogEntry := mkBulkLogEntry {
  bl_habitId : Z;
  bl_completed : bool;
  bl_notes : option String.string
}.

Record BulkLogResult := mkBulkLogResult {
  br_habitId : Z;
  success : bool;
  error : option String.string
}.

Definition is_digit (a : Ascii.ascii) : bool :=
  let n := Ascii.nat_of_ascii a in (48 <=? n)%nat && (n <=? 57)%nat.

(** [/^\d{4}-\d{2}-\d{2}$/.test(date)]. *)
Definition date_format_ok (date : String.string) : bool :=
  match String.list_ascii_of_string date with
  | [y1; y2; y3; y4; s1; m1; m2; s2; d1; d2] =>
      forallb is_digit [y1; y2; y3; y4; m1; m2; d1; d2]
      && Ascii.eqb s1 "-" && Ascii.eqb s2 "-"
  | _ => false
  end.

Section BulkLogUpdate.
(** [is_future date]: [new Date(date) > today] at the time of the call. *)
Variable is_future : String.string -> bool.
(** [HabitModel.logCompletion(habitId, userId, date, completed, notes)] for the
    calling user: the database write, which may reject. *)
Variable store : Z -> String.string -> bool -> option String.string -> Result unit.

(** [validateLogDate(date)]. *)
Definition validateLogDate (date : String.string) : Result unit :=
  if negb (date_format_ok date) then Err "Invalid date format. Use YYYY-MM-DD"
  else if is_future date then Err "Cannot log habits for future dates"
  else Ok tt.

(** [HabitService.logCompletion]: validation, then the write; errors rethrown. *)
Definition logCompletion (habitId : Z) (date : String.string) (completed : bool)
    (notes : option String.string) : Result unit :=
  match validateLogDate date with
  | Err e => Err e
  | Ok _ => store habitId date completed notes
  end.

(** [bulkLogUpdate(userId, date, logs)]: each element's [try]/[catch] turns a
    rejection into [{ habitId, success: false, error }], so the [Promise.all]
    never rejects. *)
Definition bulkLogUpdate (date : String.string) (logs : list BulkLogEntry)
    : list BulkLogResult :=
  map (fun log =>
         match logCompletion (bl_habitId log) date (bl_completed log) (bl_notes log) with
         | Ok _ => mkBulkLogResult (bl_habitId log) true None
         | Err e => mkBulkLogResult (bl_habitId log) false (Some e)
         end) logs.
End BulkLogUpdate.

(** *** Query building: [HabitLogModel.bulkInsert] and [HabitModel.update] *)

(** A parameter passed to [pool.execute]. *)
Inductive SqlValue :=
  | SqlInt (z : Z)
  | SqlString (s : String.string)
  | SqlBool (b : bool)
  | SqlDays (days : list Z)
  | SqlNull.

(** JavaScript truthiness of a parameter value. *)
Definition truthy (v : SqlValue) : bool :=
  match v with
  | SqlInt z => negb (z =? 0)
  | SqlString s => negb (String.eqb s String.EmptyString)
  | SqlBool b => b
  | SqlDays _ => true
  | SqlNull => false
  end.

(** The call made to the database: none, or [pool.execute(sql, params)]. *)
Inductive Execution := NoQuery | Execute (sql : String.string) (params : list SqlValue).

(** [arr.join(sep)]. *)
Fixpoint join (sep : String.string) (l : list String.string) : String.string :=
  match l with
  | [] => String.EmptyString
  | [x] => x
  | x :: rest => String.append x (String.append sep (join sep rest))
  end.

Record InsertLog := mkInsertLog {
  il_habit_id : Z;
  il_log_date : String.string;
  il_completed : bool;
  il_notes : option String.string
}.

(** [log.notes || null]: an absent or empty note is sent as NULL. *)
Definition notes_or_null (notes : option String.string) : SqlValue :=
  match notes with
  | None | Some String.EmptyString => SqlNull
  | Some s => SqlString s
  end.

Definition bulk_insert_sql (placeholders : String.string) : String.string :=
  String.append "INSERT INTO habit_logs (habit_id, log_date, completed, notes) 
       VALUES " (String.append placeholders "
       ON DUPLICATE KEY UPDATE 
         completed = VALUES(completed),
         notes = VALUES(notes)").

(** [HabitLogModel.bulkInsert(logs)]: the query it runs; with no logs it
    returns 0 without one. *)
Definition bulkInsert (logs : list InsertLog) : Execution :=
  match logs with
  | [] => NoQuery
  | _ =>
      let values := map (fun log => [SqlInt (il_habit_id log); SqlString (il_log_date log);
                                      SqlBool (il_completed log); notes_or_null (il_notes log)])
                      logs in
      let placeholders := join ", " (map (fun _ => "(?, ?, ?, ?)"%string) logs) in
      Execute (bulk_insert_sql placeholders) (concat values)
  end.

Section HabitUpdate.
(** [JSON.stringify] of a [target_days] value. *)
Variable JSON_stringify : SqlValue -> String.string.

(** [HabitModel.update(id, userId, updates)]: [updates] as the list of
    [Object.entries(updates)], [None] for an [undefined] value. *)
Definition update_fields (updates : list (String.string * option SqlValue))
    : list String.string * list SqlValue :=
  fold_left (fun '(fields, values) '(key, value) =>
      match value with
      | None => (fields, values)
      | Some v =>
          (fields ++ [String.append key " = ?"],
           values ++ [if String.eqb key "target_days" && truthy v
                      then SqlString (JSON_stringify v) else v])
      end) updates ([], []).

Definition habit_update (id userId : Z) (updates : list (String.string * option SqlValue))
    : Execution :=
  let '(fields, values) := update_fields updates in
  match fields with
  | [] => NoQuery
  | _ =>
      Execute (String.append "UPDATE habits SET "
                 (String.append (join ", " fields) " WHERE id = ? AND user_id = ?"))
              (values ++ [SqlInt id; SqlInt userId])
  end.
End HabitUpdate.

(** *** [HabitService.getHabitSuggestions] *)

(** [toLowerCase] on an ASCII string. *)
Definition lower_ascii (a : Ascii.ascii) : Ascii.ascii :=
  let n := Ascii.nat_of_ascii a in
  if (65 <=? n)%nat && (n <=? 90)%nat then Ascii.ascii_of_nat (n + 32) else a.

Fixpoint toLowerCase (s : String.string) : String.string :=
  match s with
  | String.EmptyString => String.EmptyString
  | String.String a rest => String.String (lower_ascii a) (toLowerCase rest)
  end.

(** [s.includes(sub)]. *)
Fixpoint str_includes (s sub : String.string) : bool :=
  String.prefix sub s
  || match s with
     | String.EmptyString => false
     | String.String _ rest => str_includes rest sub
     end.

Definition commonHabits : list String.string :=
  ["Meditate for 10 minutes"; "Read 20 pages"; "Exercise for 30 minutes";
   "Drink 8 glasses of water"; "Write in journal"; "Learn something new";
   "Practice gratitude"; "No screens before bed"; "Wake up early"; "Plan next day"]%string.

(** [getHabitSuggestions(userId)]: [habitNames] is the settled
    [findByUserId(userId)] mapped by [h => h.name.toLowerCase()]; a rejection is
    caught and gives []. *)
Definition getHabitSuggestions (habitNames : Result (list String.string))
    : list String.string :=
  match habitNames with
  | Err _ => []
  | Ok names =>
      filter (fun habit =>
                negb (existsb (fun name =>
                                 str_includes (toLowerCase habit) name
                                 || str_includes name (toLowerCase habit)) names))
             commonHabits
  end.

(** * Properties *)

(** ** Concrete log series used below

    Dates are day numbers: day 100 is "day-1" (most recent), 99 is "day-2",
    98 is "day-3". *)
Definition scenario_B : list HabitLog :=
  [mkLog 100 false; mkLog 99 true; mkLog 98 true].

(** Completed entries on days 10, 8 and 7: a run of three completed entries in
    list order with a two-day gap between the first two. *)
Definition gap_series : list HabitLog :=
  [mkLog 10 true; mkLog 8 true; mkLog 7 true].

(** Completed, missed, completed on three consecutive days. *)
Definition miss_between : list HabitLog :=
  [mkLog 10 true; mkLog 9 false; mkLog 8 true].

(** ** Sorting the logs *)

Lemma stable_sort_snoc {A} (kb : A -> A -> bool) (l : list A) (x : A) :
  stable_sort kb (l ++ [x]) = insert_stable kb x (stable_sort kb l).
Proof. unfold stable_sort. now rewrite fold_left_app. Qed.

Lemma newest_first_nil : newest_first [] = [].
Proof. reflexivity. Qed.

(** A log strictly newer than the head of the newest-first order goes in front. *)
Lemma newest_first_snoc_newer (logs : list HabitLog) (y : HabitLog)
    (s : list HabitLog) (x : HabitLog) :
  newest_first logs = y :: s -> log_date y < log_date x ->
  newest_first (logs ++ [x]) = x :: y :: s.
Proof.
  intros Hs Hlt. unfold newest_first in *.
  rewrite stable_sort_snoc, Hs. simpl.
  destruct (log_date x <=? log_date y) eqn:E; [lia|reflexivity].
Qed.

(** ** Current streak: the shift lemmas used for monotonicity *)

Lemma hs_current_shift (s : list HabitLog) (p : option Z) (c : Z) :
  1 <= c -> hs_current s p (c + 1) = hs_current s p c + 1.
Proof.
  revert p c. induction s as [|log rest IH]; intros p c Hc; simpl; [reflexivity|].
  destruct (completed log); [|reflexivity].
  destruct (c + 1 =? 0) eqn:E1; [lia|]. destruct (c =? 0) eqn:E2; [lia|].
  destruct p as [q|]; [|reflexivity].
  destruct (q - log_date log =? 1); [|reflexivity].
  apply IH. lia.
Qed.

Lemma calc_loop_cur_shift (s : list HabitLog) (c t L t' L' : Z)
    (last last' prev : option Z) :
  1 <= c ->
  currentStreak (calc_loop s (c + 1) t' L' last' prev)
  = currentStreak (calc_loop s c t L last prev) + 1.
Proof.
  revert c t L t' L' last last' prev.
  induction s as [|log rest IH]; intros c t L t' L' last last' prev Hc; simpl;
    [reflexivity|].
  destruct (completed log).
  - destruct (c + 1 =? 0) eqn:E1; [lia|]. destruct (c =? 0) eqn:E2; [lia|].
    destruct prev as [q|].
    + destruct (q - log_date log =? 1); [apply IH; lia|reflexivity].
    + apply IH; lia.
  - apply IH; lia.
Qed.

(** ** Longest streak of [getHabitStats]: the maximal run of completed entries *)

Lemma hs_longest_upper (l : list HabitLog) (temp longest : Z) (last : option Z) :
  0 <= temp <= longest ->
  longest <= fst (hs_longest l temp longest last)
  /\ (forall b c, l = b ++ c -> Forall (fun x => completed x = true) b ->
        temp + Z.of_nat (length b) <= fst (hs_longest l temp longest last))
  /\ (forall a b c, l = a ++ b ++ c -> Forall (fun x => completed x = true) b ->
        Z.of_nat (length b) <= fst (hs_longest l temp longest last)).
Proof.
  revert temp longest last.
  induction l as [|x l IH]; intros temp longest last Hinv.
  - simpl. repeat split; [lia| |].
    + intros b c Hbc _. destruct b; [simpl; lia|discriminate].
    + intros a b c Habc _. destruct a; [|discriminate].
      destruct b; [simpl; lia|discriminate].
  - simpl. destruct (completed x) eqn:Ex.
    + set (L' := if longest <? temp + 1 then temp + 1 else longest).
      assert (Hinv' : 0 <= temp + 1 <= L' /\ longest <= L')
        by (unfold L'; destruct (Z.ltb_spec longest (temp + 1)); lia).
      destruct Hinv' as [Hinv' HL].
      destruct (IH (temp + 1) L' (Some (log_date x)) Hinv') as [HC [HA HB]].
      repeat split.
      * lia.
      * intros b c Hbc Hb. destruct b as [|y b]; simpl in *.
        -- lia.
        -- injection Hbc as -> Hl. inversion Hb; subst.
           specialize (HA b c eq_refl H2). lia.
      * intros a b c Habc Hb. destruct a as [|y a]; simpl in *.
        -- destruct b as [|y b]; simpl in *; [lia|].
           injection Habc as -> Hl. inversion Hb; subst.
           specialize (HA b c eq_refl H2). lia.
        -- injection Habc as -> Hl. exact (HB a b c Hl Hb).
    + assert (Hinv' : 0 <= 0 <= longest) by lia.
      destruct (IH 0 longest last Hinv') as [HC [HA HB]].
      repeat split.
      * exact HC.
      * intros b c Hbc Hb. destruct b as [|y b]; simpl in *; [lia|].
        injection Hbc as -> Hl. inversion Hb; subst. congruence.
      * intros a b c Habc Hb. destruct a as [|y a]; simpl in *.
        -- destruct b as [|y b]; simpl in *; [lia|].
           injection Habc as -> Hl. inversion Hb; subst. congruence.
        -- injection Habc as -> Hl. exact (HB a b c Hl Hb).
Qed.

Lemma hs_longest_attained (l : list HabitLog) (temp longest : Z) (last : option Z) :
  fst (hs_longest l temp longest last) = longest
  \/ (exists b c, l = b ++ c /\ Forall (fun x => completed x = true) b
        /\ fst (hs_longest l temp longest last) = temp + Z.of_nat (length b))
  \/ (exists a b c, l = a ++ b ++ c /\ Forall (fun x => completed x = true) b
        /\ fst (hs_longest l temp longest last) = Z.of_nat (length b)).
Proof.
  revert temp longest last.
  induction l as [|x l IH]; intros temp longest last; simpl; [left; reflexivity|].
  destruct (completed x) eqn:Ex.
  - destruct (IH (temp + 1) (if longest <? temp + 1 then temp + 1 else longest)
                 (Some (log_date x))) as [H|[(b & c & Hl & Hb & H)|(a & b & c & Hl & Hb & H)]].
    + destruct (Z.ltb_spec longest (temp + 1)).
      * right; left. exists [x], l. repeat split; simpl; auto; lia.
      * left. exact H.
    + right; left. exists (x :: b), c. subst l. repeat split; auto.
      simpl length; lia.
    + right; right. exists (x :: a), b, c. subst l. auto.
  - destruct (IH 0 longest last) as [H|[(b & c & Hl & Hb & H)|(a & b & c & Hl & Hb & H)]].
    + left. exact H.
    + right; right. exists [x], b, c. subst l. repeat split; auto; lia.
    + right; right. exists (x :: a), b, c. subst l. auto.
Qed.

(** The longest streak of [getHabitStats] is the length of the longest block of
    consecutive completed entries of the chronologically sorted logs. *)
Lemma getHabitStats_longest_is_max_run (logs : list HabitLog) :
  (exists a b c, chronological logs = a ++ b ++ c
     /\ Forall (fun x => completed x = true) b
     /\ longestStreak (getHabitStats_streaks logs) = Z.of_nat (length b))
  /\ (forall a b c, chronological logs = a ++ b ++ c ->
        Forall (fun x => completed x = true) b ->
        Z.of_nat (length b) <= longestStreak (getHabitStats_streaks logs)).
Proof.
  unfold getHabitStats_streaks.
  destruct (hs_longest (chronological logs) 0 0 None) as [L last] eqn:E. simpl.
  pose proof (hs_longest_upper (chronological logs) 0 0 None ltac:(lia)) as (_ & _ & HB).
  pose proof (hs_longest_attained (chronological logs) 0 0 None)
    as [H|[(b & c & Hl & Hb & H)|(a & b & c & Hl & Hb & H)]];
    rewrite E in *; simpl in *.
  - split; [|exact HB]. exists [], [], (chronological logs). simpl. auto.
  - split; [|exact HB]. exists [], b, c. subst. auto.
  - split; [|exact HB]. exists a, b, c. auto.
Qed.

Lemma calculateStreaks_unfold (logs : list HabitLog) :
  calculateStreaks logs = calc_loop (newest_first logs) 0 0 0 None None.
Proof. destruct logs; reflexivity. Qed.

(** ** C2: the current-streak scan and Scenario B *)

(** C2 (code_bug).  On Scenario B, [day-1: missed, day-2: completed,
    day-3: completed], [calculateStreaks] does not stop at the missed most recent
    entry: it reports a current streak of 2 (longest 2), where the claim and the
    sibling loop of [getHabitStats] give 0 (longest 2). *)
Theorem calculateStreaks_scenario_B :
  calculateStreaks scenario_B = mkStreaks 2 2 (Some 99)
  /\ getHabitStats_streaks scenario_B = mkStreaks 0 2 (Some 99).
Proof. split; reflexivity. Qed.

(** ** C3: the longest streak covers the whole list *)

(** C3 (code_bug).  On completed entries dated 10, 8 and 7, the longest block of
    consecutive completed entries in chronological order has length 3 and
    [getHabitStats] reports 3, but [calculateStreaks] reports 1: its [break] at
    the two-day gap also ends the longest-streak scan. *)
Theorem calculateStreaks_longest_cut_by_break :
  chronological gap_series = [mkLog 7 true; mkLog 8 true; mkLog 10 true]
  /\ longestStreak (getHabitStats_streaks gap_series) = 3
  /\ longestStreak (calculateStreaks gap_series) = 1.
Proof. repeat split; reflexivity. Qed.

(** ** C5: the two streak computations disagree *)

(** C5 (code_bug).  [calculateStreaks] and the streak part of [getHabitStats]
    return different results on Scenario B (current streak 2 vs 0) and on the
    series with a gap (longest streak 1 vs 3). *)
Theorem streak_computations_differ :
  calculateStreaks scenario_B <> getHabitStats_streaks scenario_B
  /\ calculateStreaks gap_series <> getHabitStats_streaks gap_series.
Proof. split; vm_compute; congruence. Qed.

(** ** C9: current streak vs longest streak *)

(** C9 (code_bug).  On [completed, missed, completed] over three consecutive
    days (distinct dates), [calculateStreaks] reports a current streak of 2 and a
    longest streak of 1, so [currentStreak <= longestStreak] fails. *)
Theorem calculateStreaks_current_exceeds_longest :
  currentStreak (calculateStreaks miss_between) = 2
  /\ longestStreak (calculateStreaks miss_between) = 1.
Proof. split; reflexivity. Qed.

(** ** C10: monotonicity of the current streak *)

(** C10.  If the most recent entry (the head of the newest-first order) is
    completed, appending a completed entry dated the next day never decreases the
    current streak, in [calculateStreaks] and in [getHabitStats]. *)
Theorem current_streak_monotone_next_day (logs : list HabitLog) (y : HabitLog)
    (s : list HabitLog)
    (Hhead : newest_first logs = y :: s) (Hy : completed y = true) :
  currentStreak (calculateStreaks logs)
    <= currentStreak (calculateStreaks (logs ++ [mkLog (log_date y + 1) true]))
  /\ currentStreak (getHabitStats_streaks logs)
    <= currentStreak (getHabitStats_streaks (logs ++ [mkLog (log_date y + 1) true])).
Proof.
  assert (Hnew : newest_first (logs ++ [mkLog (log_date y + 1) true])
                 = mkLog (log_date y + 1) true :: y :: s)
    by (apply newest_first_snoc_newer; [exact Hhead|simpl; lia]).
  split.
  - rewrite !calculateStreaks_unfold, Hnew, Hhead. simpl. rewrite Hy.
    replace (log_date y + 1 - log_date y =? 1) with true by (symmetry; apply Z.eqb_eq; lia).
    simpl.
    pose proof (calc_loop_cur_shift s 1 1 1 2 2 (Some (log_date y)) (Some (log_date y + 1))
                  (Some (log_date y)) ltac:(lia)) as H.
    simpl in H. lia.
  - unfold getHabitStats_streaks.
    destruct (hs_longest (chronological logs) 0 0 None).
    destruct (hs_longest (chronological (logs ++ [mkLog (log_date y + 1) true])) 0 0 None).
    simpl. rewrite Hnew, Hhead. simpl. rewrite Hy.
    replace (log_date y + 1 - log_date y =? 1) with true by (symmetry; apply Z.eqb_eq; lia).
    pose proof (hs_current_shift s (Some (log_date y)) 1 ltac:(lia)) as H.
    simpl in H. lia.
Qed.

Lemma current_streak_monotone_next_day_witness :
  newest_first [mkLog 5 true] = mkLog 5 true :: []
  /\ completed (mkLog 5 true) = true
  /\ currentStreak (calculateStreaks [mkLog 5 true])
       <= currentStreak (calculateStreaks ([mkLog 5 true] ++ [mkLog (5 + 1) true]))
  /\ currentStreak (getHabitStats_streaks [mkLog 5 true])
       <= currentStreak (getHabitStats_streaks ([mkLog 5 true] ++ [mkLog (5 + 1) true])).
Proof.
  split; [reflexivity|]. split; [reflexivity|].
  exact (current_streak_monotone_next_day [mkLog 5 true] (mkLog 5 true) [] eq_refl eq_refl).
Defined.

(** ** C1: range of the consistency score *)

Lemma calc_loop_cur_nonneg (l : list HabitLog) (cur t L : Z) (last prev : option Z) :
  0 <= cur -> 0 <= currentStreak (calc_loop l cur t L last prev).
Proof.
  revert cur t L last prev.
  induction l as [|log rest IH]; intros cur t L last prev Hc; simpl; [exact Hc|].
  destruct (completed log); [|apply IH; exact Hc].
  destruct (cur =? 0); [apply IH; lia|].
  destruct prev as [p|]; [|apply IH; exact Hc].
  destruct (p - log_date log =? 1); [apply IH; lia|simpl; exact Hc].
Qed.

Lemma count_completed_bounds (logs : list HabitLog) :
  0 <= count_completed logs <= Z.of_nat (length logs).
Proof.
  unfold count_completed. pose proof (filter_length_le completed logs). lia.
Qed.

Open Scope Q_scope.

Lemma Qdiv_nonneg (a b : Q) : 0 <= a -> 0 < b -> 0 <= a / b.
Proof.
  intros Ha Hb. apply Qle_shift_div_l; [exact Hb|].
  rewrite Qmult_0_l. exact Ha.
Qed.

Lemma Qdiv_le_one (a b : Q) : a <= b -> 0 < b -> a / b <= 1.
Proof.
  intros Hab Hb. apply Qle_shift_div_r; [exact Hb|].
  rewrite Qmult_1_l. exact Hab.
Qed.

Lemma js_min_num (a b : Q) :
  js_min (Num a) (Num b) = Num (if Qle_bool a b then a else b).
Proof. simpl. destruct (Qle_bool a b); reflexivity. Qed.

Lemma min_cap_bounds (a b : Q) :
  0 <= a -> 0 <= b ->
  0 <= (if Qle_bool a b then a else b) <= b.
Proof.
  intros Ha Hb. destruct (Qle_bool a b) eqn:E.
  - apply Qle_bool_iff in E. split; assumption.
  - split; [exact Hb|apply Qle_refl].
Qed.

Lemma q_round_bounds (q : Q) : 0 <= q <= 100 -> (0 <= q_round q <= 100)%Z.
Proof.
  intros [H0 H1]. unfold q_round. split.
  - change 0%Z with (Qfloor 0). apply Qfloor_resp_le.
    apply (Qle_trans _ q); [exact H0|].
    rewrite <- (Qplus_0_r q) at 1. apply Qplus_le_compat; [apply Qle_refl|discriminate].
  - change 100%Z with (Qfloor (100 + (1 # 2))). apply Qfloor_resp_le.
    apply Qplus_le_compat; [exact H1|apply Qle_refl].
Qed.

(** The schedule component is a number in [0, 20], or NaN exactly when a weekly
    habit with target days has no logged weekday among them and no completed log. *)
Lemma schedule_score_cases (logs : list HabitLog) (f : Frequency)
    (td : option (list Z)) :
  (exists q, schedule_score logs f td = Num q /\ 0 <= q <= 20)
  \/ (schedule_score logs f td = NaN /\ f = Weekly
      /\ exists t, td = Some t /\ calculateExpectedDays logs t = 0%Z
                   /\ count_completed logs = 0%Z).
Proof.
  pose proof (count_completed_bounds logs) as [Hc _].
  destruct f.
  - left. simpl. eexists; split; [reflexivity|].
    destruct (count_completed logs >? 0)%Z; split; discriminate.
  - destruct td as [t|]; [|left; exists 0; split; [reflexivity|split; discriminate]].
    simpl. unfold js_div.
    assert (He : (0 <= calculateExpectedDays logs t)%Z)
      by (unfold calculateExpectedDays; lia).
    destruct (Qeq_bool (inject_Z (calculateExpectedDays logs t)) 0) eqn:E0.
    + apply Qeq_bool_iff in E0.
      assert (E0' : calculateExpectedDays logs t = 0%Z)
        by (apply inject_Z_injective; exact E0).
      clear E0; rename E0' into E0.
      destruct (Qle_bool (inject_Z (count_completed logs)) 0) eqn:E1.
      * apply Qle_bool_iff in E1.
        change (inject_Z (count_completed logs) <= inject_Z 0) in E1.
        rewrite <- Zle_Qle in E1.
        assert (Hz : (inject_Z 0 <= inject_Z (count_completed logs)))
          by (rewrite <- Zle_Qle; exact Hc).
        apply Qle_bool_iff in Hz.
        change (Qle_bool 0 (inject_Z (count_completed logs)) = true) in Hz.
        rewrite Hz. simpl.
        right. repeat split. exists t. repeat split; [exact E0|lia].
      * left. simpl. exists 20. split; [reflexivity|split; discriminate].
    + left. cbn [js_scale]. rewrite js_min_num. eexists; split; [reflexivity|].
      apply min_cap_bounds; [|discriminate].
      apply Qmult_le_0_compat; [|discriminate].
      apply Qdiv_nonneg; [change (inject_Z 0 <= inject_Z (count_completed logs));
                          rewrite <- Zle_Qle; exact Hc|].
      change (inject_Z 0 < inject_Z (calculateExpectedDays logs t)).
      rewrite <- Zlt_Qlt.
      destruct (Z.eq_dec (calculateExpectedDays logs t) 0) as [Hz|Hz]; [|lia].
      rewrite Hz in E0. discriminate.
Qed.

(** The consistency score is an integer in [0, 100], or NaN exactly in the case
    of [schedule_score_cases] where the schedule component is NaN. *)
Lemma consistency_score_range (logs : list HabitLog) (f : Frequency)
    (td : option (list Z)) :
  (exists z, calculateConsistencyScore logs f td = Num (inject_Z z) /\ (0 <= z <= 100)%Z)
  \/ (calculateConsistencyScore logs f td = NaN /\ schedule_score logs f td = NaN).
Proof.
  destruct logs as [|l0 ls].
  { left. exists 0%Z. split; [reflexivity|lia]. }
  cbv beta iota zeta delta [calculateConsistencyScore].
  set (logs := l0 :: ls) in *.
  pose proof (count_completed_bounds logs) as [Hc Hct].
  assert (Ht : (0 < Z.of_nat (length logs))%Z) by (unfold logs; simpl; lia).
  set (q1 := inject_Z (count_completed logs) / inject_Z (Z.of_nat (length logs)) * 50).
  assert (H1 : 0 <= q1 <= 50).
  { unfold q1. split.
    - apply Qmult_le_0_compat; [|discriminate].
      apply Qdiv_nonneg.
      + change (inject_Z 0 <= inject_Z (count_completed logs)).
        rewrite <- Zle_Qle; exact Hc.
      + change (inject_Z 0 < inject_Z (Z.of_nat (length logs))).
        rewrite <- Zlt_Qlt; exact Ht.
    - rewrite <- (Qmult_1_l 50) at 2. apply Qmult_le_compat_r; [|discriminate].
      apply Qdiv_le_one; [rewrite <- Zle_Qle; exact Hct|].
      change (inject_Z 0 < inject_Z (Z.of_nat (length logs))).
      rewrite <- Zlt_Qlt; exact Ht. }
  set (s := calculateStreaks logs).
  assert (Hs : (0 <= currentStreak s)%Z)
    by (unfold s; rewrite calculateStreaks_unfold; apply calc_loop_cur_nonneg; lia).
  set (a := inject_Z (currentStreak s) / inject_Z (Z.max (longestStreak s) 1) * 30).
  assert (Ha : 0 <= a).
  { unfold a. apply Qmult_le_0_compat; [|discriminate].
    apply Qdiv_nonneg.
    - change (inject_Z 0 <= inject_Z (currentStreak s)).
      rewrite <- Zle_Qle; exact Hs.
    - change (inject_Z 0 < inject_Z (Z.max (longestStreak s) 1)).
      rewrite <- Zlt_Qlt; lia. }
  rewrite js_min_num.
  pose proof (min_cap_bounds a 30 Ha ltac:(discriminate)) as H2.
  destruct (schedule_score_cases logs f td) as [(q3 & Hq3 & H3)|(Hnan & _)].
  - left. rewrite Hq3. simpl.
    eexists; split; [reflexivity|]. apply q_round_bounds.
    set (q2 := if Qle_bool a 30 then a else 30) in *.
    destruct H2 as [H2a H2b]. destruct H1 as [H1a H1b]. destruct H3 as [H3a H3b].
    split.
    + apply (Qle_trans _ (0 + 0 + 0)); [discriminate|].
      repeat apply Qplus_le_compat; assumption.
    + apply (Qle_trans _ (50 + 30 + 20)); [|discriminate].
      repeat apply Qplus_le_compat; assumption.
  - right. rewrite Hnan. split; reflexivity.
Qed.

Close Scope Q_scope.

(** C1 (code_bug).  A weekly habit with target weekdays {Monday} and a single
    missed log on a Tuesday (day 5, 1970-01-06): [calculateExpectedDays] is 0 and
    [completedDays / expectedDays] is [0 / 0], so the consistency score is NaN,
    not an integer in [0, 100]. *)
Theorem consistency_score_nan_weekly :
  getDay 5 = 2
  /\ calculateExpectedDays [mkLog 5 false] [1] = 0
  /\ calculateConsistencyScore [mkLog 5 false] Weekly (Some [1]) = NaN.
Proof. repeat split; reflexivity. Qed.

(** ** C4: the schedule-adherence component *)

(** The distinct weekdays (1 = Monday .. 7 = Sunday) that are target weekdays and
    on which at least one log is dated. *)
Definition target_weekdays_logged (logs : list HabitLog) (td : list Z) : list Z :=
  filter (fun w => includes td w
                   && existsb (fun log => normalize_weekday (getDay (log_date log)) =? w) logs)
    [1; 2; 3; 4; 5; 6; 7].

Lemma getDay_range (d : Z) : 0 <= getDay d <= 6.
Proof. unfold getDay. pose proof (Z.mod_pos_bound (d + 4) 7). lia. Qed.

Lemma normalize_weekday_range (x : Z) : 0 <= x <= 6 -> 1 <= normalize_weekday x <= 7.
Proof. unfold normalize_weekday. destruct (Z.eqb_spec x 0); lia. Qed.

Lemma In_week (w : Z) : In w [1; 2; 3; 4; 5; 6; 7] <-> 1 <= w <= 7.
Proof.
  simpl. split.
  - intros H. repeat destruct H as [H|H]; subst; lia.
  - intros H. assert (1 = w \/ 2 = w \/ 3 = w \/ 4 = w \/ 5 = w \/ 6 = w \/ 7 = w)
      as Hw by lia. tauto.
Qed.

(** [calculateExpectedDays] counts weekdays, not calendar dates. *)
Lemma calculateExpectedDays_weekdays (logs : list HabitLog) (td : list Z) :
  calculateExpectedDays logs td = Z.of_nat (length (target_weekdays_logged logs td)).
Proof.
  unfold calculateExpectedDays. f_equal.
  set (U := nodup Z.eq_dec (map (fun log => getDay (log_date log)) logs)).
  set (L1 := filter (fun day => includes td (normalize_weekday day)) U).
  assert (HU : forall x, In x U <-> exists log, In log logs /\ getDay (log_date log) = x).
  { intros x. unfold U. rewrite nodup_In, in_map_iff. firstorder. }
  assert (HL1 : forall x, In x L1 -> 0 <= x <= 6).
  { intros x Hx. unfold L1 in Hx. apply filter_In in Hx as [Hx _].
    apply HU in Hx as (log & _ & <-). apply getDay_range. }
  rewrite <- (length_map normalize_weekday L1).
  apply Permutation_length, NoDup_Permutation.
  - apply NoDup_map_NoDup_ForallPairs.
    + intros x y Hx Hy. apply HL1 in Hx. apply HL1 in Hy.
      unfold normalize_weekday. destruct (Z.eqb_spec x 0), (Z.eqb_spec y 0); lia.
    + apply NoDup_filter, NoDup_nodup.
  - apply NoDup_filter. repeat constructor; rewrite ?In_week; simpl; intros H;
      repeat destruct H as [H|H]; lia.
  - intros w. rewrite in_map_iff. unfold target_weekdays_logged.
    rewrite filter_In, In_week, andb_true_iff, existsb_exists. split.
    + intros (x & <- & Hx). pose proof (HL1 x Hx) as Hr.
      unfold L1 in Hx. apply filter_In in Hx as [Hx Hinc].
      apply HU in Hx as (log & Hlog & Hd).
      split; [now apply normalize_weekday_range|]. split; [exact Hinc|].
      exists log. split; [exact Hlog|]. apply Z.eqb_eq. now rewrite Hd.
    + intros (_ & Hinc & log & Hlog & Hw). apply Z.eqb_eq in Hw.
      exists (getDay (log_date log)). split; [exact Hw|].
      unfold L1. apply filter_In. split.
      * apply HU. now exists log.
      * now rewrite Hw.
Qed.

Open Scope Q_scope.

Lemma js_min_Qmin (a b : Q) : js_min (Num a) (Num b) = Num (Qmin a b).
Proof.
  rewrite js_min_num. f_equal.
  unfold Qmin, GenericMinMax.gmin, Qcompare, Qle_bool.
  destruct (Z.leb_spec (Qnum a * QDen b) (Qnum b * QDen a));
    destruct (Z.compare_spec (Qnum a * QDen b) (Qnum b * QDen a)); first [reflexivity | lia].
Qed.

(** C4 (corrected).  Daily: 20 when some log is completed, 0 otherwise.  Weekly
    with target weekdays [td]: when [expectedDays] is positive the component is
    [min(completedDays / expectedDays * 20, 20)], where [expectedDays] is the
    number of distinct weekdays (Sunday as 7) among the logged dates that belong
    to [td] (at most 7), not the number of distinct calendar dates. *)
Theorem schedule_score_amended (logs : list HabitLog) (otd : option (list Z))
    (td : list Z) :
  schedule_score logs Daily otd = Num (if (count_completed logs >? 0)%Z then 20 else 0)
  /\ ((0 < Z.of_nat (length (target_weekdays_logged logs td)))%Z ->
      schedule_score logs Weekly (Some td)
      = Num (Qmin (inject_Z (count_completed logs)
                   / inject_Z (Z.of_nat (length (target_weekdays_logged logs td))) * 20)
                  20)).
Proof.
  split; [reflexivity|]. intros Hpos.
  unfold schedule_score. rewrite calculateExpectedDays_weekdays.
  unfold js_div.
  destruct (Qeq_bool (inject_Z (Z.of_nat (length (target_weekdays_logged logs td)))) 0) eqn:E.
  - apply Qeq_bool_iff in E.
    change (inject_Z (Z.of_nat (length (target_weekdays_logged logs td))) == inject_Z 0) in E.
    apply (proj1 (inject_Z_injective _ _)) in E. lia.
  - cbn [js_scale]. apply js_min_Qmin.
Qed.

(** Three logs on three Mondays (days 4, 11 and 18), one of them completed. *)
Definition three_mondays : list HabitLog :=
  [mkLog 18 true; mkLog 11 false; mkLog 4 false].

(** C4 counterexample.  With target weekdays {Monday} there are three distinct
    target calendar dates and one completed log, so the claim gives
    [min(20, 1/3 * 20)]; the code gives 20, because [expectedDays] is 1. *)
Lemma schedule_score_counts_weekdays_not_dates :
  map (fun log => normalize_weekday (getDay (log_date log))) three_mondays = [1; 1; 1]%Z
  /\ count_completed three_mondays = 1%Z
  /\ calculateExpectedDays three_mondays [1%Z] = 1%Z
  /\ schedule_score three_mondays Weekly (Some [1%Z]) = Num 20
  /\ ~ (20 == Qmin (inject_Z 1 / inject_Z 3 * 20) 20).
Proof.
  repeat split; try reflexivity.
  vm_compute. discriminate.
Qed.

Close Scope Q_scope.

(** ** C6: a failing habit aborts the user statistics *)

Lemma promise_all_ok {A} (rs : list (Result A)) :
  (exists l, promise_all rs = Ok l) <-> (forall e, ~ In (Err e) rs).
Proof.
  induction rs as [|r rs IH]; simpl.
  - split; [intros _ e []|intros _; eexists; reflexivity].
  - destruct r as [a|e0].
    + destruct (promise_all rs) as [l|e1] eqn:E.
      * split; [|intros _; eexists; reflexivity].
        intros _ e [H|H]; [discriminate|].
        assert (Hok : exists l0, @Ok (list A) l = Ok l0) by (exists l; reflexivity).
        exact (proj1 IH Hok e H).
      * split; [intros [l H]; discriminate|].
        intros Hall. exfalso.
        destruct (proj2 IH (fun e H => Hall e (or_intror H))) as [l H]. discriminate.
    + split; [intros [l H]; discriminate|].
      intros Hall. exfalso. exact (Hall e0 (or_introl eq_refl)).
Qed.

(** C6 (corrected).  [getUserStats] returns a [UserStats] exactly when every
    per-habit computation succeeded; a single failure makes the whole call fail
    (the rejection of [Promise.all] is rethrown), and no zeroed per-habit
    statistics are substituted. *)
Theorem getUserStats_ok_iff_all_habits_ok (rs : list (Result HabitSummary))
    (totalCompletedLogs : Z) :
  (exists u, getUserStats rs totalCompletedLogs = Ok u)
  <-> (forall e, ~ In (Err e) rs).
Proof.
  unfold getUserStats. destruct rs as [|r rs'].
  - split; [intros _ e []|intros _; eexists; reflexivity].
  - rewrite <- promise_all_ok.
    destruct (promise_all (r :: rs')) as [l|e] eqn:E.
    + split; intros _; eexists; reflexivity.
    + split; intros [x H]; discriminate.
Qed.

Definition habit_ok : HabitSummary := mkSummary 1 String.EmptyString 50 3.

(** C6 counterexample.  Two habits, the second failing: no [UserStats] covering
    the first habit is returned; the call fails with the second habit's error. *)
Lemma getUserStats_one_failure_aborts :
  getUserStats [Ok habit_ok; Err String.EmptyString] 0 = Err String.EmptyString
  /\ ~ (exists u, getUserStats [Ok habit_ok; Err String.EmptyString] 0 = Ok u).
Proof.
  split; [reflexivity|]. intros [u H]. discriminate.
Qed.

(** ** C7: milestone projection *)

Lemma find_first {A} (f : A -> bool) (l : list A) :
  match find f l with
  | Some m => exists pre post, l = pre ++ m :: post
                /\ Forall (fun x => f x = false) pre /\ f m = true
  | None => Forall (fun x => f x = false) l
  end.
Proof.
  induction l as [|x l IH]; simpl; [constructor|].
  destruct (f x) eqn:Fx.
  - exists [], l. auto.
  - destruct (find f l) as [m|].
    + destruct IH as (pre & post & -> & Hpre & Hm).
      exists (x :: pre), post. auto.
    + constructor; assumption.
Qed.

(** The ladder part of the projection, and the sentinel 99 for a zero rate. *)
Lemma project_milestone_ladder (cs : Z) (rate : double) :
  ((Forall (fun m => m <= cs)%Z milestones
    /\ nextMilestone (project_milestone cs rate) = (cs + 7)%Z)
   \/ (exists pre post,
         milestones = pre ++ nextMilestone (project_milestone cs rate) :: post
         /\ Forall (fun m => m <= cs)%Z pre
         /\ (cs < nextMilestone (project_milestone cs rate))%Z))
  /\ ((rate = S754_zero false \/ rate = S754_zero true) ->
      daysToReach (project_milestone cs rate) = f64_of_Z 99).
Proof.
  split.
  - unfold project_milestone. cbv beta zeta. cbn [nextMilestone].
    pose proof (find_first (fun m => (cs <? m)%Z) milestones) as Hf.
    destruct (find (fun m => (cs <? m)%Z) milestones) as [m|].
    + destruct Hf as (pre & post & Hl & Hpre & Hm).
      assert (Hin : In m milestones) by (rewrite Hl; apply in_or_app; right; left; reflexivity).
      assert (Hm0 : (m =? 0)%Z = false)
        by (simpl in Hin; repeat destruct Hin as [<-|Hin]; try reflexivity; destruct Hin).
      rewrite Hm0. right. exists pre, post. repeat split; [exact Hl| |].
      * eapply Forall_impl; [|exact Hpre]. intros x Hx. simpl in Hx.
        apply Z.ltb_ge in Hx. exact Hx.
      * apply Z.ltb_lt. exact Hm.
    + left. split; [|reflexivity].
      eapply Forall_impl; [|exact Hf]. intros x Hx. apply Z.ltb_ge in Hx. exact Hx.
  - intros [-> | ->]; reflexivity.
Qed.

(** C7 (code bug).  At current streak 39 and completion rate 70 (49 completed
    logs out of 70, for instance), the next milestone is 60 and the confidence 70
    as the claim says, but the days to reach it are not
    [ceil((60 - 39) / (70 / 100)) = 30]: the code divides in binary64, where
    [70 / 100] is the double nearest 0.7, [21 / 0.7] evaluates to
    [30 + 2^-48] (30.000000000000004) and [Math.ceil] returns 31. *)
Theorem project_milestone_ceil_overshoots :
  nextMilestone (project_milestone 39 (f64_of_Z 70)) = 60%Z
  /\ confidence (project_milestone 39 (f64_of_Z 70)) = f64_of_Z 70
  /\ (f64_to_Q (f64_div (f64_of_Z 21) (f64_div (f64_of_Z 70) (f64_of_Z 100)))
      == 30 + (1 # 281474976710656))%Q
  /\ daysToReach (project_milestone 39 (f64_of_Z 70)) = f64_of_Z 31
  /\ Qceiling (inject_Z (60 - 39) / (inject_Z 70 / 100)) = 30%Z.
Proof. repeat split; vm_compute; reflexivity. Qed.

(** ** C8: user-statistics aggregation *)

Section InsertionSort.
Context {A : Type}.
Variable kb : A -> A -> bool.

Lemma insert_stable_perm (x : A) (s : list A) :
  Permutation (insert_stable kb x s) (x :: s).
Proof.
  induction s as [|y s IH]; simpl; [reflexivity|].
  destruct (kb y x); [|reflexivity].
  rewrite IH. apply perm_swap.
Qed.

Lemma fold_insert_perm (l acc : list A) :
  Permutation (fold_left (fun acc x => insert_stable kb x acc) l acc) (l ++ acc).
Proof.
  revert acc. induction l as [|x l IH]; intros acc; simpl; [reflexivity|].
  rewrite IH, insert_stable_perm. symmetry. apply Permutation_middle.
Qed.

Lemma stable_sort_perm (l : list A) : Permutation (stable_sort kb l) l.
Proof. unfold stable_sort. rewrite fold_insert_perm, app_nil_r. reflexivity. Qed.
End InsertionSort.

Lemma filter_cons_eq {A} (f : A -> bool) (a : A) (l : list A) :
  filter f (a :: l) = if f a then a :: filter f l else filter f l.
Proof. reflexivity. Qed.

Lemma filter_all_false {A} (f : A -> bool) (l : list A) :
  (forall z, In z l -> f z = false) -> filter f l = [].
Proof.
  induction l as [|x l IH]; intros H; simpl; [reflexivity|].
  rewrite (H x (or_introl eq_refl)). apply IH. intros z Hz. apply H. right. exact Hz.
Qed.

Open Scope Q_scope.

(** The order of [habitsByCompletion] after the sort: rates descending. *)
Definition rate_desc (a b : HabitSummary) : Prop := completion_rate b <= completion_rate a.

Definition insert_rate : HabitSummary -> list HabitSummary -> list HabitSummary :=
  insert_stable (fun y x => Qle_bool (completion_rate x) (completion_rate y)).

Lemma rate_desc_trans : Transitive rate_desc.
Proof. intros a b c Hab Hbc. unfold rate_desc in *. eapply Qle_trans; eassumption. Qed.

Lemma insert_rate_hdrel (y x : HabitSummary) (s : list HabitSummary) :
  HdRel rate_desc y s -> rate_desc y x -> HdRel rate_desc y (insert_rate x s).
Proof.
  intros Hs Hyx. destruct s as [|z s]; simpl; [constructor; exact Hyx|].
  destruct (Qle_bool (completion_rate x) (completion_rate z)); constructor;
    [inversion Hs; assumption|exact Hyx].
Qed.

Lemma insert_rate_sorted (x : HabitSummary) (s : list HabitSummary) :
  Sorted rate_desc s -> Sorted rate_desc (insert_rate x s).
Proof.
  induction s as [|y s IH]; intros Hs; simpl; [repeat constructor|].
  inversion Hs as [|? ? Hs' Hhd]; subst.
  destruct (Qle_bool (completion_rate x) (completion_rate y)) eqn:E.
  - constructor; [apply IH; exact Hs'|].
    apply insert_rate_hdrel; [exact Hhd|]. apply Qle_bool_iff. exact E.
  - constructor; [exact Hs|]. constructor. unfold rate_desc.
    apply Qlt_le_weak, Qnot_le_lt. intros H. apply Qle_bool_iff in H. congruence.
Qed.

Lemma fold_insert_rate_sorted (l acc : list HabitSummary) :
  Sorted rate_desc acc -> Sorted rate_desc (fold_left (fun acc x => insert_rate x acc) l acc).
Proof.
  revert acc. induction l as [|x l IH]; intros acc Hacc; simpl; [exact Hacc|].
  apply IH, insert_rate_sorted, Hacc.
Qed.

(** Inserting into a sorted list puts [x] after every element of the same rate. *)
Lemma insert_rate_filter (r : Q) (x : HabitSummary) (s : list HabitSummary) :
  Sorted rate_desc s ->
  filter (fun h => Qeq_bool (completion_rate h) r) (insert_rate x s)
  = filter (fun h => Qeq_bool (completion_rate h) r) s
    ++ filter (fun h => Qeq_bool (completion_rate h) r) [x].
Proof.
  induction s as [|y s IH]; intros Hs; [reflexivity|].
  simpl insert_rate. inversion Hs as [|? ? Hs' Hhd]; subst.
  destruct (Qle_bool (completion_rate x) (completion_rate y)) eqn:E.
  - simpl. rewrite (IH Hs'). destruct (Qeq_bool (completion_rate y) r); reflexivity.
  - assert (Hlt : completion_rate y < completion_rate x).
    { apply Qnot_le_lt. intros H. apply Qle_bool_iff in H. congruence. }
    change (filter (fun h => Qeq_bool (completion_rate h) r) [x])
      with (if Qeq_bool (completion_rate x) r then [x] else []).
    rewrite (filter_cons_eq _ x (y :: s)).
    destruct (Qeq_bool (completion_rate x) r) eqn:Ex.
    + apply Qeq_bool_iff in Ex.
      pose proof (Sorted_StronglySorted rate_desc_trans Hs) as Hss.
      rewrite (filter_all_false _ (y :: s)).
      * reflexivity.
      * intros z Hz. destruct (Qeq_bool (completion_rate z) r) eqn:Hzr; [|reflexivity].
        exfalso. apply Qeq_bool_iff in Hzr.
        assert (Hzy : completion_rate z <= completion_rate y).
        { destruct Hz as [<-|Hz]; [apply Qle_refl|].
          inversion Hss as [|? ? _ Hall]; subst.
          exact (proj1 (Forall_forall _ _) Hall z Hz). }
        rewrite Hzr, <- Ex in Hzy. exact (Qlt_not_le _ _ Hlt Hzy).
    + rewrite app_nil_r. reflexivity.
Qed.

Lemma fold_insert_rate_filter (r : Q) (l acc : list HabitSummary) :
  Sorted rate_desc acc ->
  filter (fun h => Qeq_bool (completion_rate h) r)
    (fold_left (fun acc x => insert_rate x acc) l acc)
  = filter (fun h => Qeq_bool (completion_rate h) r) acc
    ++ filter (fun h => Qeq_bool (completion_rate h) r) l.
Proof.
  revert acc. induction l as [|x l IH]; intros acc Hacc; simpl fold_left.
  - rewrite app_nil_r. reflexivity.
  - rewrite (IH _ (insert_rate_sorted x acc Hacc)), (insert_rate_filter r x acc Hacc).
    rewrite <- app_assoc, <- filter_app. reflexivity.
Qed.

Lemma sum_Q_acc (l : list Q) (a : Q) : fold_left Qplus l a == a + fold_right Qplus 0 l.
Proof.
  revert a. induction l as [|x l IH]; intros a; simpl; [ring|].
  rewrite IH. ring.
Qed.

Close Scope Q_scope.

Lemma max_with_zero_upper (l : list Z) : Forall (fun x => x <= max_with_zero l) l.
Proof.
  unfold max_with_zero. induction l as [|x l IH]; simpl; constructor; [lia|].
  eapply Forall_impl; [|exact IH]. intros y Hy. cbv beta in Hy. lia.
Qed.

Lemma max_with_zero_attained (l : list Z) :
  Forall (fun x => 0 <= x) l ->
  (l = [] /\ max_with_zero l = 0) \/ In (max_with_zero l) l.
Proof.
  unfold max_with_zero. induction l as [|x l IH]; intros Hnn; [left; split; reflexivity|].
  inversion Hnn as [|? ? Hx Hl]; subst. right. simpl.
  destruct (IH Hl) as [[-> H0]|Hin].
  - simpl. left. lia.
  - destruct (Z.max_spec x (fold_right Z.max 0 l)) as [[_ ->]|[_ ->]]; [right; exact Hin|left; reflexivity].
Qed.

Lemma sort_by_rate_desc_fold (hs : list HabitSummary) :
  sort_by_rate_desc hs = fold_left (fun acc x => insert_rate x acc) hs [].
Proof. reflexivity. Qed.

(** The streak and ranking fields of the aggregation: current and best streak
    are the maximum current streak (0 for no habit), and the ranking is a
    permutation of the input sorted by completion rate descending in which
    habits of equal rate keep their input order. *)
Lemma aggregate_user_stats_streaks_ranking (hs : list HabitSummary) (n tc : Z)
    (Hnn : Forall (fun h => 0 <= current_streak h) hs) :
  us_current_streak (aggregate_user_stats hs n tc)
     = us_best_streak (aggregate_user_stats hs n tc)
  /\ Forall (fun h => current_streak h <= us_current_streak (aggregate_user_stats hs n tc)) hs
  /\ ((hs = [] /\ us_current_streak (aggregate_user_stats hs n tc) = 0)
      \/ exists h, In h hs
           /\ current_streak h = us_current_streak (aggregate_user_stats hs n tc))
  /\ Permutation (habits_by_completion (aggregate_user_stats hs n tc)) hs
  /\ Sorted rate_desc (habits_by_completion (aggregate_user_stats hs n tc))
  /\ (forall r, filter (fun h => Qeq_bool (completion_rate h) r)
                  (habits_by_completion (aggregate_user_stats hs n tc))
                = filter (fun h => Qeq_bool (completion_rate h) r) hs).
Proof.
  unfold aggregate_user_stats. cbn [overall_completion_rate us_current_streak
    us_best_streak average_streak habits_by_completion].
  repeat split.
  - pose proof (max_with_zero_upper (map current_streak hs)) as H.
    rewrite Forall_map in H. exact H.
  - pose proof (max_with_zero_attained (map current_streak hs)) as H.
    destruct H as [[Hnil H0]|Hin].
    + rewrite Forall_map. exact Hnn.
    + left. destruct hs; [split; [reflexivity|exact H0]|discriminate].
    + right. apply in_map_iff in Hin as (h & Hh & Hin). exists h. auto.
  - apply stable_sort_perm.
  - rewrite sort_by_rate_desc_fold. apply fold_insert_rate_sorted. constructor.
  - intros r. rewrite sort_by_rate_desc_fold, fold_insert_rate_filter; [reflexivity|constructor].
Qed.

(** Forty habits of rate 50, twenty-three of them on a streak of one day. *)
Definition streak_split_40 : list (double * Z) :=
  repeat (f64_of_Z 50, 1%Z) 23 ++ repeat (f64_of_Z 50, 0%Z) 17.

(** C8 (code bug).  For forty habits of completion rate 50 whose current
    streaks are 1 for twenty-three of them and 0 for the others, the overall
    rate is 50 as the claim says, but the mean streak 23/40 = 0.575 rounded to 2
    decimals is 0.58, while the code computes in binary64: [23 / 40] is just
    below 0.575, [* 100] gives 57.49999999999999, [Math.round] gives 57 and
    [averageStreak] is 0.57. *)
Theorem getUserStats_average_streak_rounds_down :
  fst (getUserStats_averages streak_split_40) = f64_of_Z 50
  /\ (f64_to_Q (f64_mul (f64_div (f64_of_Z 23) (f64_of_Z 40)) (f64_of_Z 100)) < 115 # 2)%Q
  /\ snd (getUserStats_averages streak_split_40) = f64_div (f64_of_Z 57) (f64_of_Z 100)
  /\ snd (getUserStats_averages streak_split_40) <> f64_div (f64_of_Z 58) (f64_of_Z 100)
  /\ q_round ((23 # 40) * 100) = 58%Z.
Proof.
  split; [vm_compute; reflexivity|].
  split; [vm_compute; reflexivity|].
  split; [vm_compute; reflexivity|].
  split; [vm_compute; discriminate|].
  vm_compute; reflexivity.
Qed.

(** The pure aggregation is what [getUserStats] returns when every habit succeeds. *)
Lemma getUserStats_all_ok (h : HabitSummary) (hs : list HabitSummary) (tc : Z) :
  getUserStats (map Ok (h :: hs)) tc
  = Ok (aggregate_user_stats (h :: hs) (Z.of_nat (length (h :: hs))) tc).
Proof.
  assert (H : forall l : list HabitSummary, promise_all (map Ok l) = Ok l)
    by (induction l as [|x l IH]; simpl; [reflexivity|rewrite IH; reflexivity]).
  unfold getUserStats. simpl map. rewrite <- (map_cons Ok h hs), H, length_map.
  reflexivity.
Qed.

(** * Further services *)

(** ** [AIService.calculateStreak] *)

Lemma ai_streak_loop_ge (l : list HabitLog) (s : Z) : s <= ai_streak_loop l s.
Proof.
  revert s. induction l as [|x l IH]; intros s; simpl; [lia|].
  destruct (completed x); [specialize (IH (s + 1)); lia|lia].
Qed.

Lemma ai_streak_loop_le (l : list HabitLog) (s : Z) :
  ai_streak_loop l s <= s + count_completed l.
Proof.
  unfold count_completed. revert s.
  induction l as [|x l IH]; intros s; simpl; [lia|].
  destruct (completed x); simpl length.
  - specialize (IH (s + 1)). lia.
  - lia.
Qed.

Lemma hs_current_le_ai (l : list HabitLog) (prev : option Z) (cur : Z) :
  0 <= cur -> hs_current l prev cur <= ai_streak_loop l cur.
Proof.
  revert prev cur. induction l as [|x l IH]; intros prev cur Hc; simpl; [lia|].
  destruct (completed x); [|lia].
  destruct (cur =? 0) eqn:E0.
  - apply Z.eqb_eq in E0. subst cur. apply IH. lia.
  - destruct prev as [p|].
    + destruct (p - log_date x =? 1).
      * apply IH. lia.
      * pose proof (ai_streak_loop_ge l (cur + 1)). lia.
    + pose proof (ai_streak_loop_ge l (cur + 1)). lia.
Qed.

Lemma filter_length_perm {A} (f : A -> bool) (l l' : list A) :
  Permutation l l' -> length (filter f l) = length (filter f l').
Proof.
  induction 1 as [| x l l' _ IH | x y l | l l' l'' _ IH1 _ IH2]; simpl.
  - reflexivity.
  - destruct (f x); simpl; congruence.
  - destruct (f x), (f y); reflexivity.
  - congruence.
Qed.

Lemma count_completed_newest_first (logs : list HabitLog) :
  count_completed (newest_first logs) = count_completed logs.
Proof.
  unfold count_completed, newest_first. f_equal.
  apply filter_length_perm, stable_sort_perm.
Qed.

(** Extra: [AIService.calculateStreak] counts at least the current streak of
    [HabitLogModel.getHabitStats] (it has no consecutive-date check) and at most
    the number of completed logs. *)
Theorem calculateStreak_bounds (logs : list HabitLog) :
  currentStreak (getHabitStats_streaks logs) <= calculateStreak logs
  <= count_completed logs.
Proof.
  unfold getHabitStats_streaks.
  destruct (hs_longest (chronological logs) 0 0 None) as [L last]. simpl.
  unfold calculateStreak. split.
  - apply hs_current_le_ai. lia.
  - pose proof (ai_streak_loop_le (newest_first logs) 0) as H.
    rewrite count_completed_newest_first in H. lia.
Qed.

(** ** Completion rates: [calculateHabitStats] and [AIService] *)

Open Scope Q_scope.

Lemma q_round_nonneg (q : Q) : 0 <= q -> (0 <= q_round q)%Z.
Proof.
  intros H0. unfold q_round.
  change 0%Z with (Qfloor 0). apply Qfloor_resp_le.
  apply (Qle_trans _ q); [exact H0|].
  rewrite <- (Qplus_0_r q) at 1. apply Qplus_le_compat; [apply Qle_refl|discriminate].
Qed.

Lemma q_round_range (q : Q) (k : Z) : 0 <= q <= inject_Z k -> (0 <= q_round q <= k)%Z.
Proof.
  intros [H0 H1]. split; [apply q_round_nonneg; exact H0|].
  unfold q_round.
  assert (Qfloor (q + (1 # 2)) < k + 1)%Z as H; [|lia].
  rewrite Zlt_Qlt. apply (Qle_lt_trans _ (q + (1 # 2))); [apply Qfloor_le|].
  rewrite inject_Z_plus. apply (Qle_lt_trans _ (inject_Z k + (1 # 2))).
  - apply Qplus_le_compat; [exact H1|apply Qle_refl].
  - apply Qplus_lt_r. reflexivity.
Qed.

Lemma round2_nonneg (x : Q) : 0 <= x -> 0 <= round2 x.
Proof.
  intros H. unfold round2.
  assert (0 <= q_round (x * 100))%Z as Hr.
  { apply q_round_nonneg. apply Qmult_le_0_compat; [exact H|discriminate]. }
  apply Qdiv_nonneg; [|reflexivity].
  change (inject_Z 0 <= inject_Z (q_round (x * 100))). rewrite <- Zle_Qle. exact Hr.
Qed.

Lemma round2_range (x : Q) : 0 <= x <= 100 -> 0 <= round2 x <= 100.
Proof.
  intros [H0 H1].
  assert (0 <= q_round (x * 100) <= 10000)%Z as [Hr0 Hr1].
  { apply q_round_range. split.
    - apply Qmult_le_0_compat; [exact H0|discriminate].
    - change (inject_Z 10000) with (100 * 100).
      apply Qmult_le_compat_r; [exact H1|discriminate]. }
  split; [apply round2_nonneg; exact H0|].
  unfold round2. apply Qle_shift_div_r; [reflexivity|].
  change (100 * 100) with (inject_Z 10000). rewrite <- Zle_Qle. exact Hr1.
Qed.

Lemma rate_range (c t : Z) :
  (0 <= c <= t)%Z -> (0 < t)%Z -> 0 <= inject_Z c / inject_Z t * 100 <= 100.
Proof.
  intros [Hc Hct] Ht.
  assert (0 < inject_Z t) as Ht'.
  { change (inject_Z 0 < inject_Z t). rewrite <- Zlt_Qlt. exact Ht. }
  assert (0 <= inject_Z c) as Hc'.
  { change (inject_Z 0 <= inject_Z c). rewrite <- Zle_Qle. exact Hc. }
  assert (inject_Z c <= inject_Z t) as Hct'. { rewrite <- Zle_Qle. exact Hct. }
  split.
  - apply Qmult_le_0_compat; [apply Qdiv_nonneg; assumption|discriminate].
  - rewrite <- (Qmult_1_l 100) at 2.
    apply Qmult_le_compat_r; [apply Qdiv_le_one; assumption|discriminate].
Qed.

Close Scope Q_scope.

(** Extra: when the habit is found, [calculateHabitStats] succeeds; its
    completion rate is [AIService.calculateCompletionRate] of the same logs
    rounded to 2 decimals and lies in [0, 100]; the completed logs are at most
    the logs; the consistency score is an integer in [0, 100] or NaN. *)
Theorem calculateHabitStats_rates (habitId : Z) (h : Habit) (logs : list HabitLog)
    (bestDay : option Z) :
  exists st, calculateHabitStats habitId (Some h) logs bestDay = Ok st
    /\ st_completion_rate st = round2 (calculateCompletionRate logs)
    /\ (0 <= st_completion_rate st <= 100)%Q
    /\ 0 <= completed_logs st <= total_logs st
    /\ ((exists z, consistency_score st = Num (inject_Z z) /\ 0 <= z <= 100)
        \/ consistency_score st = NaN).
Proof.
  eexists. split; [reflexivity|]. cbn [st_completion_rate completed_logs total_logs
    consistency_score].
  pose proof (count_completed_bounds logs) as Hb.
  split; [|split; [|split; [exact Hb|]]].
  - destruct logs as [|l0 ls]; [reflexivity|].
    replace (Z.of_nat (length (l0 :: ls)) >? 0) with true
      by (symmetry; apply Z.gtb_lt; simpl length; lia).
    reflexivity.
  - apply round2_range.
    destruct (Z.of_nat (length logs) >? 0) eqn:E.
    + apply Z.gtb_lt in E. apply rate_range; lia.
    + split; apply Qle_refl || discriminate.
  - destruct (consistency_score_range logs (h_frequency h) (h_target_days h))
      as [H|[H _]]; [left; exact H|right; exact H].
Qed.

(** ** [getStreakComparison] *)

Lemma q_round_percent (z : Z) : q_round (inject_Z z / 30 * 100) = (20 * z + 3) / 6.
Proof.
  unfold q_round, Qfloor. cbn. rewrite Z.mul_1_r.
  replace (z * 100 * 2 + 30) with ((20 * z + 3) * 10) by ring.
  change 60 with (6 * 10). apply Z.div_mul_cancel_r; lia.
Qed.

Lemma calculateStreaks_current_nonneg (logs : list HabitLog) :
  0 <= currentStreak (calculateStreaks logs).
Proof.
  rewrite calculateStreaks_unfold. apply calc_loop_cur_nonneg. lia.
Qed.

(** Extra: for a found habit, [getStreakComparison] reports the current streak
    of [calculateStreaks] and a percentile in [0, 99], which is 99 exactly when
    that streak is at least 30 days. *)
Theorem getStreakComparison_percentile (habitId : Z) (h : Habit)
    (logs : list HabitLog) (bestDay : option Z) :
  exists cmp,
    getStreakComparison (calculateHabitStats habitId (Some h) logs bestDay) = Ok cmp
    /\ userStreak cmp = currentStreak (calculateStreaks logs)
    /\ 0 <= percentile cmp <= 99
    /\ (percentile cmp = 99 <-> 30 <= userStreak cmp).
Proof.
  eexists. split; [reflexivity|]. cbn [userStreak percentile st_current_streak].
  split; [reflexivity|]. rewrite q_round_percent.
  pose proof (calculateStreaks_current_nonneg logs).
  generalize dependent (currentStreak (calculateStreaks logs)). intros cs Hcs.
  pose proof (Z.div_mod (20 * cs + 3) 6 ltac:(lia)).
  pose proof (Z.mod_pos_bound (20 * cs + 3) 6 ltac:(lia)).
  split; [lia|split; intros; lia].
Qed.

(** ** [getUserStats] and [AIService.calculateOverallCompletionRate] *)

Open Scope Q_scope.

Lemma fold_rate_sum (hs : list HabitSummary) (a : Q) :
  fold_left (fun sum habit => sum + completion_rate habit) hs a
  = fold_left Qplus (map completion_rate hs) a.
Proof.
  revert a. induction hs as [|x hs IH]; intros a; simpl; [reflexivity|]. apply IH.
Qed.

Close Scope Q_scope.

(** Extra: the overall completion rate of [getUserStats] is
    [AIService.calculateOverallCompletionRate] of the same per-habit summaries,
    rounded to 2 decimals. *)
Theorem aggregate_overall_is_ai_rate (hs : list HabitSummary) (n tc : Z) :
  overall_completion_rate (aggregate_user_stats hs n tc)
  = round2 (calculateOverallCompletionRate hs).
Proof.
  unfold aggregate_user_stats, calculateOverallCompletionRate. cbn [overall_completion_rate].
  destruct hs as [|h0 hs]; [reflexivity|].
  unfold sum_Q. rewrite fold_rate_sum. reflexivity.
Qed.

Lemma promise_all_map_ok {A} (l : list A) : promise_all (map Ok l) = Ok l.
Proof. induction l as [|x l IH]; simpl; [reflexivity|]. rewrite IH. reflexivity. Qed.

Open Scope Q_scope.

Lemma Qplus_nonneg (a b : Q) : 0 <= a -> 0 <= b -> 0 <= a + b.
Proof.
  intros Ha Hb. apply (Qle_trans _ (0 + 0)); [apply Qle_refl|].
  apply Qplus_le_compat; assumption.
Qed.

Lemma fold_right_Qplus_bounds (l : list Q) :
  Forall (fun q => 0 <= q <= 100) l ->
  0 <= fold_right Qplus 0 l <= inject_Z (Z.of_nat (length l)) * 100.
Proof.
  induction 1 as [|x l [Hx0 Hx1] _ [IH0 IH1]]; cbn [fold_right length].
  - split; apply Qle_refl.
  - rewrite Nat2Z.inj_succ, <- Z.add_1_l, inject_Z_plus. split.
    + apply Qplus_nonneg; assumption.
    + setoid_replace ((inject_Z 1 + inject_Z (Z.of_nat (length l))) * 100)
        with (100 + inject_Z (Z.of_nat (length l)) * 100) by ring.
      apply Qplus_le_compat; assumption.
Qed.

Lemma fold_right_Qplus_nonneg (l : list Q) :
  Forall (fun q => 0 <= q) l -> 0 <= fold_right Qplus 0 l.
Proof.
  induction 1 as [|x l Hx _ IH]; simpl; [apply Qle_refl|].
  apply Qplus_nonneg; assumption.
Qed.

Lemma average_range (l : list Q) :
  l <> [] -> Forall (fun q => 0 <= q <= 100) l ->
  0 <= sum_Q l / inject_Z (Z.of_nat (length l)) <= 100.
Proof.
  intros Hne Hl. destruct (fold_right_Qplus_bounds l Hl) as [H0 H1].
  assert (0 < inject_Z (Z.of_nat (length l))) as Hn.
  { change (inject_Z 0 < inject_Z (Z.of_nat (length l))). rewrite <- Zlt_Qlt.
    destruct l; [congruence|simpl length; lia]. }
  unfold sum_Q. setoid_rewrite sum_Q_acc. rewrite Qplus_0_l. split.
  - apply Qdiv_nonneg; assumption.
  - apply Qle_shift_div_r; [exact Hn|]. rewrite Qmult_comm. exact H1.
Qed.

Lemma average_nonneg (l : list Q) :
  Forall (fun q => 0 <= q) l -> 0 <= match l with [] => 0 | _ =>
    sum_Q l / inject_Z (Z.of_nat (length l)) end.
Proof.
  intros Hl. destruct l as [|x l']; [apply Qle_refl|].
  assert (0 < inject_Z (Z.of_nat (length (x :: l')))) as Hn.
  { change (inject_Z 0 < inject_Z (Z.of_nat (length (x :: l')))). rewrite <- Zlt_Qlt.
    simpl length. lia. }
  unfold sum_Q. setoid_rewrite sum_Q_acc. rewrite Qplus_0_l.
  apply Qdiv_nonneg; [apply fold_right_Qplus_nonneg; exact Hl|exact Hn].
Qed.

Close Scope Q_scope.

(** The summary [getUserStats] builds from a found habit and its logs. *)
Definition summary_of (row : Habit * list HabitLog * option Z) : HabitSummary :=
  let '(h, logs, bd) := row in
  match calculateHabitStats (h_id h) (Some h) logs bd with
  | Ok st => mkSummary (h_id h) (h_name h) (st_completion_rate st) (st_current_streak st)
  | Err _ => mkSummary (h_id h) (h_name h) 0 0
  end.

Lemma habit_summary_ok (row : Habit * list HabitLog * option Z) :
  (let '(h, logs, bd) := row in habit_summary h (calculateHabitStats (h_id h) (Some h) logs bd))
  = Ok (summary_of row)
  /\ (0 <= completion_rate (summary_of row) <= 100)%Q
  /\ 0 <= current_streak (summary_of row).
Proof.
  destruct row as [[h logs] bd].
  destruct (calculateHabitStats_rates (h_id h) h logs bd) as (st & Hst & _ & Hr & _).
  unfold summary_of. rewrite Hst. split; [reflexivity|]. split; [exact Hr|].
  cbn [current_streak]. unfold calculateHabitStats in Hst. injection Hst as <-.
  apply calculateStreaks_current_nonneg.
Qed.

(** Extra: for habits that are all found, [getUserStats] over their
    [calculateHabitStats] results succeeds with an overall completion rate in
    [0, 100] and non-negative average and best streaks. *)
Theorem getUserStats_from_habit_stats (rows : list (Habit * list HabitLog * option Z))
    (tc : Z) :
  exists us,
    getUserStats (map (fun '(h, logs, bd) =>
                         habit_summary h (calculateHabitStats (h_id h) (Some h) logs bd))
                      rows) tc = Ok us
    /\ (0 <= overall_completion_rate us <= 100)%Q
    /\ (0 <= average_streak us)%Q
    /\ 0 <= us_best_streak us.
Proof.
  assert (map (fun '(h, logs, bd) =>
                 habit_summary h (calculateHabitStats (h_id h) (Some h) logs bd)) rows
          = map Ok (map summary_of rows)) as E.
  { rewrite map_map. apply map_ext. intros row. apply (habit_summary_ok row). }
  rewrite E. destruct rows as [|r0 rs].
  - eexists. split; [reflexivity|]. cbn. split; [split|split]; discriminate.
  - unfold getUserStats. cbn [map]. rewrite <- (map_cons Ok), promise_all_map_ok.
    eexists. split; [reflexivity|].
    set (hs := summary_of r0 :: map summary_of rs).
    assert (Forall (fun x => (0 <= completion_rate x <= 100)%Q /\ 0 <= current_streak x) hs)
      as Hall.
    { apply Forall_forall. intros x Hx. unfold hs in Hx. rewrite <- map_cons in Hx.
      apply in_map_iff in Hx as (row & <- & _). apply habit_summary_ok. }
    unfold aggregate_user_stats. cbn [overall_completion_rate average_streak us_best_streak].
    split; [|split].
    + apply round2_range. unfold hs at 1. rewrite <- (length_map completion_rate hs).
      apply average_range; [discriminate|].
      rewrite Forall_map. eapply Forall_impl; [|exact Hall]. intros x [Hx _]. exact Hx.
    + apply round2_nonneg.
      assert (Forall (fun q => (0 <= q)%Q) (map inject_Z (map current_streak hs))) as Hs.
      { rewrite !Forall_map. eapply Forall_impl; [|exact Hall]. intros x [_ Hx].
        change (inject_Z 0 <= inject_Z (current_streak x))%Q. rewrite <- Zle_Qle. exact Hx. }
      pose proof (average_nonneg _ Hs) as H. unfold hs in H |- *. cbn [map] in H |- *.
      cbn [length] in H |- *. rewrite !length_map in H. rewrite length_map. exact H.
    + unfold max_with_zero. induction (map current_streak hs); simpl; lia.
Qed.

(** ** [getCompletionCalendar] *)

(** Number of completed rows at the head of [l]. *)
Fixpoint leading_completed (l : list HabitLog) : Z :=
  match l with
  | [] => 0
  | log :: rest => if completed log then leading_completed rest + 1 else 0
  end.

Lemma calendar_loop_app (l : list HabitLog) (x : HabitLog) (s : Z) :
  calendar_loop (l ++ [x]) s
  = calendar_loop l s
    ++ [(x, if completed x
            then fold_left (fun c log => if completed log then c + 1 else 0) l s + 1
            else 0)].
Proof.
  revert s. induction l as [|y l IH]; intros s; simpl; [reflexivity|].
  rewrite IH. reflexivity.
Qed.

Lemma calendar_fold_leading (l : list HabitLog) :
  fold_left (fun c log => if completed log then c + 1 else 0) l 0
  = leading_completed (rev l).
Proof.
  induction l as [|x l IH] using rev_ind; [reflexivity|].
  rewrite fold_left_app, rev_app_distr, IH. reflexivity.
Qed.

(** Extra: [getCompletionCalendar] returns the rows in their order, each with a
    streak equal to the number of consecutive completed rows ending at it
    (0 on a missed row). *)
Theorem getCompletionCalendar_streaks (rows : list HabitLog) :
  map fst (getCompletionCalendar rows) = rows
  /\ map snd (getCompletionCalendar rows)
     = map (fun i => leading_completed (rev (firstn (S i) rows))) (seq 0 (length rows)).
Proof.
  unfold getCompletionCalendar.
  induction rows as [|x l [IH1 IH2]] using rev_ind; [split; reflexivity|].
  rewrite calendar_loop_app, !map_app, IH1. split; [reflexivity|].
  rewrite length_app, seq_app, map_app, IH2. cbn [map fst snd seq].
  f_equal.
  - apply map_ext_in. intros i Hi. apply in_seq in Hi.
    rewrite firstn_app. replace (S i - length l)%nat with 0%nat by lia.
    rewrite firstn_O, app_nil_r. reflexivity.
  - cbn [length seq map Nat.add].
    rewrite firstn_all2 by (rewrite length_app; simpl; lia).
    rewrite rev_app_distr, calendar_fold_leading. reflexivity.
Qed.

Lemma hs_longest_calendar (l : list HabitLog) (t L : Z) (last : option Z) :
  0 <= L ->
  fst (hs_longest l t L last) = Z.max L (max_with_zero (map snd (calendar_loop l t))).
Proof.
  revert t L last. unfold max_with_zero.
  induction l as [|x l IH]; intros t L last HL; simpl; [lia|].
  destruct (completed x); simpl.
  - destruct (Z.ltb_spec L (t + 1)); rewrite IH by lia; lia.
  - rewrite IH by lia. lia.
Qed.

(** Extra: the largest streak of the calendar of the chronologically sorted
    logs is the longest streak of [HabitLogModel.getHabitStats]. *)
Theorem getCompletionCalendar_max_streak (logs : list HabitLog) :
  max_with_zero (map snd (getCompletionCalendar (chronological logs)))
  = longestStreak (getHabitStats_streaks logs).
Proof.
  unfold getHabitStats_streaks.
  pose proof (hs_longest_calendar (chronological logs) 0 0 None ltac:(lia)) as H.
  destruct (hs_longest (chronological logs) 0 0 None) as [L last].
  cbn [fst longestStreak] in H |- *. rewrite H. unfold getCompletionCalendar.
  assert (0 <= max_with_zero (map snd (calendar_loop (chronological logs) 0))).
  { clear H. unfold max_with_zero.
    induction (map snd (calendar_loop (chronological logs) 0)); cbn [fold_right]; lia. }
  lia.
Qed.

(** ** [canLogHabitToday] *)

Lemma getDay_add (n k : Z) : getDay (n + k) = (getDay n + k) mod 7.
Proof. unfold getDay. rewrite Z.add_mod_idemp_l by lia. f_equal. ring. Qed.

(** Extra: over any seven consecutive days, [canLogHabitToday] allows an
    inactive habit on no day, an active daily habit on every day, and an active
    weekly habit on as many days as there are weekdays 1-7 in its target days
    (none without target days). *)
Theorem canLogHabitToday_week (habit : Habit) (n : Z) :
  length (filter (canLogHabitToday habit)
                 [n; n + 1; n + 2; n + 3; n + 4; n + 5; n + 6])
  = if h_is_active habit then
      match h_frequency habit, h_target_days habit with
      | Daily, _ => 7%nat
      | Weekly, Some td => length (filter (includes td) [1; 2; 3; 4; 5; 6; 7])
      | Weekly, None => 0%nat
      end
    else 0%nat.
Proof.
  destruct habit as [i nm [|] [td|] [|]]; unfold canLogHabitToday; cbn [h_is_active
    h_frequency h_target_days negb]; try reflexivity.
  cbn [filter]. rewrite !getDay_add.
  pose proof (getDay_range n) as Hr.
  assert (getDay n = 0 \/ getDay n = 1 \/ getDay n = 2 \/ getDay n = 3
          \/ getDay n = 4 \/ getDay n = 5 \/ getDay n = 6) as Hc by lia.
  destruct Hc as [E|[E|[E|[E|[E|[E|E]]]]]]; rewrite E; cbn -[includes];
    destruct (includes td 1), (includes td 2), (includes td 3), (includes td 4),
      (includes td 5), (includes td 6), (includes td 7); reflexivity.
Qed.

(** Extra: an active weekly habit can be logged on a date exactly when a log on
    that date counts as an expected day in [calculateExpectedDays]: both read
    the weekday the same way (Sunday as 7). *)
Theorem canLogHabitToday_expected_day (i : Z) (nm : String.string) (td : list Z)
    (d : Z) (c : bool) :
  canLogHabitToday (mkHabit i nm Weekly (Some td) true) d = true
  <-> calculateExpectedDays [mkLog d c] td = 1.
Proof.
  unfold canLogHabitToday, calculateExpectedDays, normalize_weekday. cbn.
  destruct (includes td (if getDay d =? 0 then 7 else getDay d)); simpl;
    split; congruence.
Qed.

(** ** [validateHabitData] *)

Lemma drop_whitespace_nil (s : list Z) :
  drop_whitespace s = [] <-> forallb js_is_whitespace s = true.
Proof.
  induction s as [|c s IH]; simpl; [tauto|].
  destruct (js_is_whitespace c); simpl; [exact IH|split; discriminate].
Qed.

Lemma forallb_drop_whitespace (s : list Z) :
  forallb js_is_whitespace (drop_whitespace s) = forallb js_is_whitespace s.
Proof.
  induction s as [|c s IH]; simpl; [reflexivity|].
  destruct (js_is_whitespace c) eqn:E; simpl; [exact IH|rewrite E; reflexivity].
Qed.

Lemma forallb_rev {A} (f : A -> bool) (l : list A) : forallb f (rev l) = forallb f l.
Proof.
  induction l as [|x l IH]; simpl; [reflexivity|].
  rewrite forallb_app, IH. simpl. rewrite andb_true_r, andb_comm. reflexivity.
Qed.

Lemma existsb_negb {A} (f : A -> bool) (l : list A) :
  existsb (fun x => negb (f x)) l = negb (forallb f l).
Proof.
  induction l as [|x l IH]; simpl; [reflexivity|]. rewrite IH.
  destruct (f x); reflexivity.
Qed.

Lemma trim_blank (s : list Z) :
  ((length s =? 0)%nat || (length (trim s) =? 0)%nat) = forallb js_is_whitespace s.
Proof.
  assert (((length (trim s) =? 0)%nat = true) <-> forallb js_is_whitespace s = true) as H.
  { unfold trim. rewrite Nat.eqb_eq, length_zero_iff_nil.
    split.
    - intros Hn. apply (f_equal (@rev Z)) in Hn. rewrite rev_involutive in Hn.
      apply drop_whitespace_nil in Hn.
      rewrite forallb_rev, forallb_drop_whitespace in Hn. exact Hn.
    - intros Hf. rewrite <- forallb_drop_whitespace, <- forallb_rev in Hf.
      apply drop_whitespace_nil in Hf. rewrite Hf. reflexivity. }
  destruct s as [|c s]; [reflexivity|]. simpl length at 1. cbn [Nat.eqb orb].
  destruct (length (trim (c :: s)) =? 0)%nat, (forallb js_is_whitespace (c :: s));
    intuition congruence.
Qed.

(** Extra: [validateHabitData] accepts exactly the data whose name has a
    code unit that is not white space and at most 200 code units, whose
    frequency is 'daily' or 'weekly', and, when weekly, whose target days form a
    non-empty array of numbers between 1 and 7 (integral or not). *)
Theorem validateHabitData_accepts (data : CreateHabitDTO) :
  validateHabitData data = Ok tt
  <-> existsb (fun c => negb (js_is_whitespace c)) (dto_name data) = true
      /\ (length (dto_name data) <= 200)%nat
      /\ match dto_frequency data with
         | None => False
         | Some Daily => True
         | Some Weekly =>
             exists td, dto_target_days data = Some td /\ td <> []
                        /\ Forall (fun day => (1 <= day <= 7)%Q) td
         end.
Proof.
  destruct data as [nm fr otd]. unfold validateHabitData.
  cbn [dto_name dto_frequency dto_target_days].
  rewrite trim_blank, existsb_negb.
  destruct (forallb js_is_whitespace nm); cbn [negb orb].
  { split; [discriminate|intros [H _]; discriminate]. }
  destruct (200 <? Z.of_nat (length nm))%Z eqn:E200.
  { apply Z.ltb_lt in E200. split; [discriminate|intros (_ & H & _); lia]. }
  apply Z.ltb_ge in E200.
  destruct fr as [[|]|].
  - split; [intros _; split; [reflexivity|split; [lia|exact I]]|intros _; reflexivity].
  - destruct otd as [[|d0 td]|].
    + split; [discriminate|intros (_ & _ & td & Htd & Hne & _); congruence].
    + destruct (existsb (fun day => negb (Qle_bool 1 day) || negb (Qle_bool day 7))
                  (d0 :: td)) eqn:Ex.
      * split; [discriminate|]. intros (_ & _ & td' & Htd & _ & Hall).
        injection Htd as <-. apply existsb_exists in Ex as (day & Hin & Hday).
        rewrite Forall_forall in Hall. destruct (Hall day Hin) as [H1 H7].
        apply Qle_bool_iff in H1. apply Qle_bool_iff in H7.
        rewrite H1, H7 in Hday. discriminate.
      * split; [intros _|intros _; reflexivity].
        split; [reflexivity|split; [lia|]].
        exists (d0 :: td). split; [reflexivity|split; [discriminate|]].
        apply Forall_forall. intros day Hin.
        destruct (Qle_bool 1 day) eqn:E1, (Qle_bool day 7) eqn:E7;
          [split; apply Qle_bool_iff; assumption|..];
          exfalso; apply Bool.diff_true_false; rewrite <- Ex; symmetry;
          apply existsb_exists; exists day; cbv beta; rewrite E1, E7; split; auto.
    + split; [discriminate|intros (_ & _ & td & Htd & _); discriminate].
  - split; [discriminate|intros (_ & _ & [])].
Qed.

(** ** [bulkLogUpdate] *)

(** Extra: [bulkLogUpdate] answers every entry in order, and the number of
    successes is the number of entries whose write succeeded when the date
    passes [validateLogDate], and 0 otherwise: a failing entry never aborts the
    batch. *)
Theorem bulkLogUpdate_results (is_future : String.string -> bool)
    (store : Z -> String.string -> bool -> option String.string -> Result unit)
    (date : String.string) (logs : list BulkLogEntry) :
  map br_habitId (bulkLogUpdate is_future store date logs) = map bl_habitId logs
  /\ length (filter success (bulkLogUpdate is_future store date logs))
     = match validateLogDate is_future date with
       | Ok _ =>
           length (filter (fun log =>
                             match store (bl_habitId log) date (bl_completed log)
                                     (bl_notes log) with
                             | Ok _ => true
                             | Err _ => false
                             end) logs)
       | Err _ => 0%nat
       end.
Proof.
  unfold bulkLogUpdate, logCompletion.
  induction logs as [|log logs [IH1 IH2]]; [split; destruct (validateLogDate _ _); reflexivity|].
  cbn [map filter]. destruct (validateLogDate is_future date) as [u|e].
  - destruct (store (bl_habitId log) date (bl_completed log) (bl_notes log));
      cbn [br_habitId success length]; rewrite IH1; split; try reflexivity;
      cbn [length]; rewrite IH2; reflexivity.
  - cbn [br_habitId success]. rewrite IH1. split; [reflexivity|exact IH2].
Qed.

(** Extra: when the date does not match [YYYY-MM-DD], every entry of
    [bulkLogUpdate] fails with the format message, whatever the clock and the
    database would do. *)
Theorem bulkLogUpdate_bad_format (is_future : String.string -> bool)
    (store : Z -> String.string -> bool -> option String.string -> Result unit)
    (date : String.string) (logs : list BulkLogEntry) :
  date_format_ok date = false ->
  bulkLogUpdate is_future store date logs
  = map (fun log => mkBulkLogResult (bl_habitId log) false
                      (Some "Invalid date format. Use YYYY-MM-DD"%string)) logs.
Proof.
  intros Hf. unfold bulkLogUpdate, logCompletion, validateLogDate. rewrite Hf.
  reflexivity.
Qed.

Lemma bulkLogUpdate_bad_format_witness :
  date_format_ok "2024/01/15" = false
  /\ bulkLogUpdate (fun _ => false) (fun _ _ _ _ => Ok tt) "2024/01/15"
       [mkBulkLogEntry 1 true None; mkBulkLogEntry 2 false None]
     = map (fun log => mkBulkLogResult (bl_habitId log) false
                         (Some "Invalid date format. Use YYYY-MM-DD"%string))
           [mkBulkLogEntry 1 true None; mkBulkLogEntry 2 false None].
Proof.
  split; [reflexivity|]. apply bulkLogUpdate_bad_format. reflexivity.
Defined.

(** ** Placeholders of the generated SQL *)

(** Occurrences of the character [c] in [s]. *)
Fixpoint count_char (c : Ascii.ascii) (s : String.string) : nat :=
  match s with
  | String.EmptyString => 0
  | String.String a rest => (if Ascii.eqb a c then 1 else 0) + count_char c rest
  end.

Lemma count_char_append (c : Ascii.ascii) (s t : String.string) :
  count_char c (String.append s t) = (count_char c s + count_char c t)%nat.
Proof. induction s as [|a s IH]; simpl; [reflexivity|]. rewrite IH. lia. Qed.

Lemma count_char_join (c : Ascii.ascii) (sep : String.string) (l : list String.string) :
  count_char c sep = 0%nat ->
  count_char c (join sep l) = list_sum (map (count_char c) l).
Proof.
  intros Hs. induction l as [|x l IH]; [reflexivity|].
  destruct l as [|y l]; [simpl; lia|].
  change (join sep (x :: y :: l)) with (String.append x (String.append sep (join sep (y :: l)))).
  rewrite !count_char_append, Hs, IH. reflexivity.
Qed.

(** Extra: [HabitLogModel.bulkInsert] runs no query for no logs; otherwise its
    statement has exactly as many [?] placeholders as parameters, four per log. *)
Theorem bulkInsert_placeholders (logs : list InsertLog) :
  (bulkInsert logs = NoQuery <-> logs = [])
  /\ forall sql params, bulkInsert logs = Execute sql params ->
       count_char "?" sql = length params /\ length params = (4 * length logs)%nat.
Proof.
  destruct logs as [|l0 ls].
  { split; [split; reflexivity|discriminate]. }
  split; [split; discriminate|]. intros sql params He.
  assert (Hsp : sql = bulk_insert_sql (join ", " (map (fun _ => "(?, ?, ?, ?)"%string) (l0 :: ls)))
               /\ params = concat (map (fun log => [SqlInt (il_habit_id log);
                    SqlString (il_log_date log); SqlBool (il_completed log);
                    notes_or_null (il_notes log)]) (l0 :: ls)))
    by (injection He; intros; subst; split; reflexivity).
  destruct Hsp as [-> ->]. unfold bulk_insert_sql.
  rewrite !count_char_append, count_char_join by reflexivity.
  assert (forall l : list InsertLog,
            list_sum (map (count_char "?") (map (fun _ => "(?, ?, ?, ?)"%string) l))
            = (4 * length l)%nat
            /\ length (concat (map (fun log => [SqlInt (il_habit_id log);
                 SqlString (il_log_date log); SqlBool (il_completed log);
                 notes_or_null (il_notes log)]) l)) = (4 * length l)%nat) as H.
  { induction l as [|x l [IH1 IH2]]; [split; reflexivity|]. split.
    - change (count_char "?" "(?, ?, ?, ?)"
              + list_sum (map (count_char "?")
                            (map (fun _ => "(?, ?, ?, ?)"%string) l))
              = 4 * length (x :: l))%nat.
      rewrite IH1. simpl. lia.
    - cbn [map concat]. rewrite length_app, IH2. simpl. lia. }
  destruct (H (l0 :: ls)) as [H1 H2]. rewrite H1, H2. simpl. lia.
Qed.

Lemma update_fields_app (JSON_stringify : SqlValue -> String.string)
    (updates : list (String.string * option SqlValue)) (fs : list String.string)
    (vs : list SqlValue) :
  fold_left (fun '(fields, values) '(key, value) =>
      match value with
      | None => (fields, values)
      | Some v =>
          (fields ++ [String.append key " = ?"],
           values ++ [if String.eqb key "target_days" && truthy v
                      then SqlString (JSON_stringify v) else v])
      end) updates (fs, vs)
  = (fs ++ fst (update_fields JSON_stringify updates),
     vs ++ snd (update_fields JSON_stringify updates)).
Proof.
  unfold update_fields. revert fs vs.
  induction updates as [|[key [v|]] updates IH]; intros fs vs; cbn [fold_left].
  - rewrite !app_nil_r. reflexivity.
  - rewrite (IH (fs ++ _)), (IH ([] ++ _)). cbn [fst snd app].
    rewrite <- !app_assoc. reflexivity.
  - apply IH.
Qed.

Lemma update_fields_shape (JSON_stringify : SqlValue -> String.string)
    (updates : list (String.string * option SqlValue)) :
  Forall (fun '(key, _) => count_char "?" key = 0%nat) updates ->
  length (fst (update_fields JSON_stringify updates))
  = length (snd (update_fields JSON_stringify updates))
  /\ list_sum (map (count_char "?") (fst (update_fields JSON_stringify updates)))
     = length (fst (update_fields JSON_stringify updates))
  /\ (fst (update_fields JSON_stringify updates) = []
      -> Forall (fun '(_, value) => value = None) updates).
Proof.
  induction 1 as [|[key [v|]] updates Hk _ [IH1 [IH2 IH3]]].
  - split; [reflexivity|split; [reflexivity|constructor]].
  - unfold update_fields at 1 2 3 4 5. cbn [fold_left].
    rewrite update_fields_app. cbn [fst snd app].
    split; [cbn [length]; rewrite IH1; reflexivity|split; [|discriminate]].
    change (count_char "?" (String.append key " = ?")
            + list_sum (map (count_char "?") (fst (update_fields JSON_stringify updates)))
            = S (length (fst (update_fields JSON_stringify updates))))%nat.
    rewrite IH2, count_char_append, Hk. simpl. lia.
  - unfold update_fields at 1 2 3 4 5. cbn [fold_left]. fold (update_fields JSON_stringify updates).
    split; [exact IH1|split; [exact IH2|]]. intros H. constructor; [reflexivity|exact (IH3 H)].
Qed.

Lemma update_fields_undefined (JSON_stringify : SqlValue -> String.string)
    (updates : list (String.string * option SqlValue)) :
  Forall (fun '(_, value) => value = None) updates ->
  fst (update_fields JSON_stringify updates) = [].
Proof.
  induction 1 as [|[key value] updates Hv _ IH]; [reflexivity|].
  cbn beta iota in Hv. subst value.
  unfold update_fields. cbn [fold_left]. exact IH.
Qed.

(** Extra: when no update key contains [?], [HabitModel.update] runs no query
    exactly when every value is [undefined]; otherwise its statement has as many
    [?] placeholders as parameters, the last two being the habit id and the user
    id. *)
Theorem habit_update_placeholders (JSON_stringify : SqlValue -> String.string)
    (id userId : Z) (updates : list (String.string * option SqlValue)) :
  Forall (fun '(key, _) => count_char "?" key = 0%nat) updates ->
  (habit_update JSON_stringify id userId updates = NoQuery
   <-> Forall (fun '(_, value) => value = None) updates)
  /\ forall sql params,
       habit_update JSON_stringify id userId updates = Execute sql params ->
       count_char "?" sql = length params
       /\ exists values, params = values ++ [SqlInt id; SqlInt userId].
Proof.
  intros Hk. destruct (update_fields_shape JSON_stringify updates Hk) as (H1 & H2 & H3).
  pose proof (update_fields_undefined JSON_stringify updates) as H4.
  unfold habit_update.
  destruct (update_fields JSON_stringify updates) as [fields values] eqn:E.
  cbn [fst snd] in H1, H2, H3, H4. destruct fields as [|f fs].
  { split; [split; [intros _; exact (H3 eq_refl)|reflexivity]|discriminate]. }
  split.
  { split; [discriminate|intros Hn; discriminate (H4 Hn)]. }
  intros sql params He.
  assert (Hsp : sql = String.append "UPDATE habits SET "
                        (String.append (join ", " (f :: fs)) " WHERE id = ? AND user_id = ?")
                /\ params = values ++ [SqlInt id; SqlInt userId])
    by (injection He; intros; subst; split; reflexivity).
  destruct Hsp as [-> ->].
  split; [|eexists; reflexivity].
  rewrite !count_char_append, count_char_join by reflexivity. rewrite H2, length_app, <- H1.
  simpl. lia.
Qed.

Lemma habit_update_placeholders_witness :
  Forall (fun '(key, _) => count_char "?" key = 0%nat)
    [("name"%string, Some (SqlString "Read")); ("color"%string, None);
     ("target_days"%string, Some (SqlDays [1; 3]))]
  /\ ((habit_update (fun _ => "[1,3]"%string) 5 6
         [("name"%string, Some (SqlString "Read")); ("color"%string, None);
          ("target_days"%string, Some (SqlDays [1; 3]))] = NoQuery
       <-> Forall (fun '(_, value) => value = None)
             [("name"%string, Some (SqlString "Read")); ("color"%string, None);
              ("target_days"%string, Some (SqlDays [1; 3]))])
      /\ forall sql params,
           habit_update (fun _ => "[1,3]"%string) 5 6
             [("name"%string, Some (SqlString "Read")); ("color"%string, None);
              ("target_days"%string, Some (SqlDays [1; 3]))] = Execute sql params ->
           count_char "?" sql = length params
           /\ exists values, params = values ++ [SqlInt 5; SqlInt 6]).
Proof.
  split; [repeat constructor|].
  apply habit_update_placeholders. repeat constructor.
Defined.

(** ** [getHabitSuggestions] *)

(** Extra: a user habit whose lower-cased name occurs in every lower-cased
    common habit (a single letter "e", for instance) removes all suggestions. *)
Theorem getHabitSuggestions_common_substring (names : list String.string)
    (n : String.string) :
  In n names ->
  forallb (fun habit => str_includes (toLowerCase habit) n) commonHabits = true ->
  getHabitSuggestions (Ok names) = [].
Proof.
  intros Hin Hall. unfold getHabitSuggestions. apply filter_all_false.
  intros habit Hh. rewrite forallb_forall in Hall.
  apply negb_false_iff, existsb_exists. exists n. split; [exact Hin|].
  rewrite (Hall habit Hh). reflexivity.
Qed.

Lemma getHabitSuggestions_common_substring_witness :
  In "e"%string ["read"%string; "e"%string]
  /\ forallb (fun habit => str_includes (toLowerCase habit) "e") commonHabits = true
  /\ getHabitSuggestions (Ok ["read"%string; "e"%string]) = [].
Proof.
  split; [right; left; reflexivity|]. split; [vm_compute; reflexivity|].
  apply (getHabitSuggestions_common_substring _ "e"%string).
  - right; left; reflexivity.
  - vm_compute; reflexivity.
Defined.
